(** * Virtual try-on: landmark smoothing, pose summary and overlay placement

    A shallow embedding of the numeric core of the glasses try-on page:
    [LandmarkUtils.smoothLandmarks], the [FaceTracker] summary measures
    ([calculateConfidence], [calculateFaceRect], [calculateHeadPose]), the
    renderer's [normalizedToWorld] / [updateGlasses] and the application's
    [onFaceDetected] callback.

    Numbers.  A JavaScript Number is modelled by a real number: [+ - * /] are
    the field operations of [R], [Math.sqrt], [Math.abs], [Math.min] and
    [Math.max] are [sqrt], [Rabs], [Rmin] and [Rmax], and [Math.atan2] is
    the two-argument arctangent [atan2] defined below.  Rounding, NaN,
    infinities and the sign of zero are outside this model; the module
    [Double] below has the smoother over IEEE binary64 numbers, for the
    statements that rounding decides.

    Arrays.  A landmark frame is the array of landmark objects that the
    detector delivers; [arr[i]] is [nth_error arr i], with [None] standing
    for the [undefined] read past the end.  [null] arguments are [None] of
    an option type.  A landmark always carries [x] and [y]; its [z] may be
    missing, which is what the source's [z || 0] caters for. *)

From Stdlib Require Import String Reals Lra Bool Arith Lia List Permutation.
From Stdlib Require Import ZArith.
From Stdlib Require PrimFloat.
Import ListNotations.

Open Scope R_scope.

(** ** Data model *)

Record Landmark : Type := mkLandmark {
  x : R;
  y : R;
  z : option R
}.

Definition Frame : Type := list Landmark.

(** [v || 0] on a coordinate that may be missing. *)
Definition or_zero (v : option R) : R :=
  match v with
  | Some r => r
  | None => 0
  end.

(** [Math.atan2(dy, dx)]: the angle of the vector [(dx, dy)], in
    [(-PI, PI]]. *)
Definition atan2 (dy dx : R) : R :=
  if Rlt_dec 0 dx then atan (dy / dx)
  else if Rlt_dec dx 0 then
    if Rle_dec 0 dy then atan (dy / dx) + PI else atan (dy / dx) - PI
  else if Rlt_dec 0 dy then PI / 2
  else if Rlt_dec dy 0 then - (PI / 2)
  else 0.

(** The comparisons [a <= b] and [a >= b] as JavaScript booleans. *)
Definition Rleb (a b : R) : bool := if Rle_dec a b then true else false.
Definition Rgeb (a b : R) : bool := if Rge_dec a b then true else false.

(** Code that can throw: [Throw] is the [TypeError] raised by reading a
    property of [null]. *)
Inductive outcome (A : Type) : Type :=
| Ok (a : A)
| Throw.
Arguments Ok {A} a.
Arguments Throw {A}.

(** ** LandmarkUtils *)

Module LandmarkUtils.

Definition distance (point1 point2 : Landmark) : R :=
  let dx := x point1 - x point2 in
  let dy := y point1 - y point2 in
  let dz := or_zero (z point1) - or_zero (z point2) in
  sqrt (dx * dx + dy * dy + dz * dz).

Definition normalizeCoordinate (coordinate : Landmark) (canvasWidth canvasHeight : R)
    : Landmark :=
  {| x := x coordinate * canvasWidth;
     y := y coordinate * canvasHeight;
     z := Some (or_zero (z coordinate)) |}.

(** Body of the [for] loop of [smoothLandmarks]: [i] is the loop counter,
    [rest] the elements [currentLandmarks[i..]], [smoothed] the array built
    so far. *)
Fixpoint smooth_loop (i : nat) (rest : list Landmark) (previousLandmarks : Frame)
    (smoothingFactor : R) (smoothed : Frame) : Frame :=
  match rest with
  | [] => smoothed
  | current :: rest' =>
      let pushed :=
        match nth_error previousLandmarks i with
        | Some previous =>
            {| x := x previous * smoothingFactor + x current * (1 - smoothingFactor);
               y := y previous * smoothingFactor + y current * (1 - smoothingFactor);
               z := Some (or_zero (z previous) * smoothingFactor
                          + or_zero (z current) * (1 - smoothingFactor)) |}
        | None => current
        end in
      smooth_loop (S i) rest' previousLandmarks smoothingFactor (smoothed ++ [pushed])
  end.

(** [static smoothLandmarks(currentLandmarks, previousLandmarks,
    smoothingFactor = 0.7)]; an omitted third argument is [None]. *)
Definition smoothLandmarks (currentLandmarks : Frame) (previousLandmarks : option Frame)
    (smoothingFactor : option R) : Frame :=
  let a := match smoothingFactor with Some v => v | None => 0.7 end in
  match previousLandmarks with
  | None => currentLandmarks
  | Some previous => smooth_loop 0 currentLandmarks previous a []
  end.

Definition midpoint (point1 point2 : Landmark) : Landmark :=
  {| x := (x point1 + x point2) / 2;
     y := (y point1 + y point2) / 2;
     z := Some ((or_zero (z point1) + or_zero (z point2)) / 2) |}.

Definition angle (point1 point2 : Landmark) : R :=
  atan2 (y point2 - y point1) (x point2 - x point1).

End LandmarkUtils.

(** ** FaceTracker: the pose summary *)

Module Rect.
Record t : Type := mk {
  x : R; y : R; width : R; height : R; centerX : R; centerY : R
}.
End Rect.

Module Pose.
Record t : Type := mk { pitch : R; yaw : R; roll : R }.
End Pose.

Module FaceTracker.

(** The [keyLandmarks] object built by [processResults]; every field is an
    array read and so may be [undefined]. *)
Record KeyLandmarks : Type := mkKeyLandmarks {
  leftEyeOuter : option Landmark;
  leftEyeInner : option Landmark;
  leftEyeCenter : option Landmark;
  rightEyeOuter : option Landmark;
  rightEyeInner : option Landmark;
  rightEyeCenter : option Landmark;
  noseTip : option Landmark;
  noseBridge : option Landmark;
  noseTop : option Landmark;
  leftCheek : option Landmark;
  rightCheek : option Landmark;
  chin : option Landmark;
  forehead : option Landmark;
  leftEyebrowOuter : option Landmark;
  leftEyebrowInner : option Landmark;
  rightEyebrowOuter : option Landmark;
  rightEyebrowInner : option Landmark
}.

Definition keyIndices : list nat := [33; 263; 1; 9]%nat.

(** The [for (const index of keyIndices)] loop of [calculateConfidence],
    threading the counter [validLandmarks]. *)
Fixpoint count_loop (landmarks : Frame) (indices : list nat) (validLandmarks : nat) : nat :=
  match indices with
  | [] => validLandmarks
  | index :: rest =>
      count_loop landmarks rest
        match nth_error landmarks index with
        | Some landmark =>
            if Rgeb (x landmark) 0 && Rleb (x landmark) 1
               && Rgeb (y landmark) 0 && Rleb (y landmark) 1
            then S validLandmarks else validLandmarks
        | None => validLandmarks
        end
  end.

Definition calculateConfidence (landmarks : option Frame) : R :=
  match landmarks with
  | None => 0
  | Some lms =>
      if (length lms =? 0)%nat then 0
      else INR (count_loop lms keyIndices 0) / INR (length keyIndices)
  end.

(** The [for (const landmark of landmarks)] loop of [calculateFaceRect],
    threading [minX], [minY], [maxX], [maxY]. *)
Fixpoint rect_loop (landmarks : list Landmark) (minX minY maxX maxY : R) : R * R * R * R :=
  match landmarks with
  | [] => (minX, minY, maxX, maxY)
  | landmark :: rest =>
      rect_loop rest (Rmin minX (x landmark)) (Rmin minY (y landmark))
                     (Rmax maxX (x landmark)) (Rmax maxY (y landmark))
  end.

Definition calculateFaceRect (landmarks : option Frame) : option Rect.t :=
  match landmarks with
  | None => None
  | Some lms =>
      if (length lms =? 0)%nat then None
      else
        let '(minX, minY, maxX, maxY) := rect_loop lms 1 1 0 0 in
        Some {| Rect.x := minX;
                Rect.y := minY;
                Rect.width := maxX - minX;
                Rect.height := maxY - minY;
                Rect.centerX := (minX + maxX) / 2;
                Rect.centerY := (minY + maxY) / 2 |}
  end.

Definition calculateHeadPose (keyLandmarks : KeyLandmarks) : Pose.t :=
  match leftEyeCenter keyLandmarks, rightEyeCenter keyLandmarks, noseTip keyLandmarks with
  | Some leftEye, Some rightEye, Some nose =>
      let eyeDeltaX := x rightEye - x leftEye in
      let eyeDeltaY := y rightEye - y leftEye in
      let roll := atan2 eyeDeltaY eyeDeltaX in
      let eyeCenterX := (x leftEye + x rightEye) / 2 in
      let noseOffsetX := x nose - eyeCenterX in
      let yaw := atan2 noseOffsetX 0.1 in
      let eyeCenterY := (y leftEye + y rightEye) / 2 in
      let noseOffsetY := y nose - eyeCenterY in
      let pitch := atan2 noseOffsetY 0.1 in
      {| Pose.pitch := pitch; Pose.yaw := yaw; Pose.roll := roll |}
  | _, _, _ => {| Pose.pitch := 0; Pose.yaw := 0; Pose.roll := 0 |}
  end.

(** What [processResults] hands to the application callback. *)
Record Results : Type := mkResults {
  landmarks : Frame;
  keyLandmarks : KeyLandmarks;
  confidence : R;
  faceRect : option Rect.t;
  headPose : Pose.t
}.

(** [processResults(results)], from [results.multiFaceLandmarks]: [None] is
    a missing list, and the first face is [multiFaceLandmarks[0]]. *)
Definition processResults (multiFaceLandmarks : option (list Frame)) : option Results :=
  match multiFaceLandmarks with
  | None | Some [] => None
  | Some (lms :: _) =>
      let at_ (i : nat) := nth_error lms i in
      let keys :=
        {| leftEyeOuter := at_ 33%nat; leftEyeInner := at_ 133%nat;
           leftEyeCenter := at_ 159%nat; rightEyeOuter := at_ 263%nat;
           rightEyeInner := at_ 362%nat; rightEyeCenter := at_ 386%nat;
           noseTip := at_ 1%nat; noseBridge := at_ 9%nat; noseTop := at_ 10%nat;
           leftCheek := at_ 234%nat; rightCheek := at_ 454%nat; chin := at_ 175%nat;
           forehead := at_ 9%nat;
           leftEyebrowOuter := at_ 70%nat; leftEyebrowInner := at_ 63%nat;
           rightEyebrowOuter := at_ 300%nat; rightEyebrowInner := at_ 293%nat |} in
      Some {| landmarks := lms;
              keyLandmarks := keys;
              confidence := calculateConfidence (Some lms);
              faceRect := calculateFaceRect (Some lms);
              headPose := calculateHeadPose keys |}
  end.

(** The camera helper, by whether it is running. *)
Record CameraUtil : Type := mkCameraUtil { running : bool }.

(** The scheduling fields of the tracker: [camera] is [null] until [init]
    has built it, and times are [Date.now()] milliseconds. *)
Record Tracker : Type := mkTracker {
  camera : option CameraUtil;
  isInitialized : bool;
  lastDetectionTime : Z;
  detectionInterval : Z
}.

(** The fields as the constructor sets them. *)
Definition new_tracker : Tracker :=
  {| camera := None; isInitialized := false;
     lastDetectionTime := 0; detectionInterval := 33 |}.

(** The [onFrame] callback handed to the camera in [init], called at time
    [currentTime]: the new state, and whether the frame was sent to the
    face mesh. *)
Definition onFrame (this : Tracker) (currentTime : Z) : Tracker * bool :=
  if (currentTime - lastDetectionTime this >=? detectionInterval this)%Z
  then (mkTracker (camera this) (isInitialized this) currentTime
                  (detectionInterval this), true)
  else (this, false).

Definition stop (this : Tracker) : Tracker :=
  mkTracker
    match camera this with
    | Some _ => Some (mkCameraUtil false)
    | None => None
    end
    false (lastDetectionTime this) (detectionInterval this).

Definition restart (this : Tracker) : Tracker :=
  mkTracker
    match camera this with
    | Some _ => Some (mkCameraUtil true)
    | None => None
    end
    (isInitialized this) (lastDetectionTime this) (detectionInterval this).

(** [isReady()], by the truthiness of [this.isInitialized && this.camera]. *)
Definition isReady (this : Tracker) : bool :=
  isInitialized this && match camera this with Some _ => true | None => false end.

End FaceTracker.

(** ** GlassesRenderer: the overlay placement *)

Module THREE.
Record Vector3 : Type := mkVector3 { x : R; y : R; z : R }.
(** The part of an [Object3D] that [updateGlasses] writes: [rotation] holds
    the three Euler angles. *)
Record Object3D : Type := mkObject3D {
  position : Vector3;
  rotation : Vector3;
  scale : Vector3;
  visible : bool
}.
End THREE.

Module Canvas.
(** An [Image] element, by its pixel size. *)
Record Image : Type := mkImage { width : R; height : R }.
(** A call made on the 2D drawing context. *)
Inductive Op : Type :=
| clearRect (x y w h : R)
| drawImage (image : Image) (dx dy dWidth dHeight : R).
(** The [width] and [height] attributes of a canvas element. *)
Record Element : Type := mkElement { elt_width : R; elt_height : R }.
End Canvas.

Module GlassesRenderer.

(** The fields of the renderer that [updateGlasses] reads or writes.
    [context2d] is the list of calls made so far on
    [this.canvas.getContext("2d")], oldest first: the canvas and its 2D
    context are taken to be there, so what is said of the flat-image branch
    holds for a renderer whose canvas gives one. *)
Record t : Type := mk {
  currentFrame : string;
  scale : R;
  width : R;
  heightOffset : R;
  glassesModel : option THREE.Object3D;
  pngImage : option Canvas.Image;
  context2d : list Canvas.Op
}.

Definition normalizedToWorld (landmark : Landmark) (canvasWidth canvasHeight : R)
    : Landmark :=
  let aspect := canvasWidth / canvasHeight in
  let frustumSize := 2 in
  {| x := (x landmark - 0.5) * frustumSize * aspect;
     y := (- (y landmark - 0.5)) * frustumSize;
     z := Some (or_zero (z landmark)) |}.

(** [this.currentFrame === 'png' && this.pngImage]: the image when the
    flat-image branch is taken. *)
Definition png_branch (this : t) : option Canvas.Image :=
  if String.eqb (currentFrame this) "png" then pngImage this else None.

(** [updateGlasses(landmarks, canvasWidth, canvasHeight)], as the renderer
    state it leaves.  The flat-image branch clears the canvas before it
    reads [landmarks[33]], which throws on [null]; the 3D-model branch
    guards [landmarks] and writes position, [rotation.z], scale and
    [visible] of the model. *)
Definition updateGlasses (this : t) (landmarks : option Frame)
    (canvasWidth canvasHeight : R) : outcome t :=
  match png_branch this with
  | Some pngImage_ =>
      let ctx := context2d this ++ [Canvas.clearRect 0 0 canvasWidth canvasHeight] in
      match landmarks with
      | None => Throw
      | Some lms =>
          match nth_error lms 33, nth_error lms 263 with
          | Some leftEye, Some rightEye =>
              let left := normalizedToWorld leftEye canvasWidth canvasHeight in
              let right := normalizedToWorld rightEye canvasWidth canvasHeight in
              let eyeDistance :=
                sqrt ((x right - x left) ^ 2 + (y right - y left) ^ 2) in
              let glassesWidth := eyeDistance * 2.5 * scale this in
              let glassesHeight :=
                (Canvas.height pngImage_ / Canvas.width pngImage_) * glassesWidth in
              let centerX := (x left + x right) / 2 + canvasWidth / 2 in
              let centerY := (y left + y right) / 2 + canvasHeight / 2 in
              Ok (mk (currentFrame this) (scale this) (width this) (heightOffset this)
                     (glassesModel this) (pngImage this)
                     (ctx ++ [Canvas.drawImage pngImage_
                                (centerX - glassesWidth / 2)
                                (centerY - glassesHeight / 2)
                                glassesWidth glassesHeight]))
          | _, _ =>
              Ok (mk (currentFrame this) (scale this) (width this) (heightOffset this)
                     (glassesModel this) (pngImage this) ctx)
          end
      end
  | None =>
      match glassesModel this, landmarks with
      | Some model, Some lms =>
          match nth_error lms 33, nth_error lms 263 with
          | Some leftEye, Some rightEye =>
              let leftEyeWorld := normalizedToWorld leftEye canvasWidth canvasHeight in
              let rightEyeWorld := normalizedToWorld rightEye canvasWidth canvasHeight in
              let centerX := (x leftEyeWorld + x rightEyeWorld) / 2 in
              let centerY :=
                (y leftEyeWorld + y rightEyeWorld) / 2 + heightOffset this * 0.001 in
              let eyeDistance := Rabs (x rightEyeWorld - x leftEyeWorld) in
              let baseScale := eyeDistance * 0.8 in
              let finalScale := baseScale * scale this * width this in
              let angle :=
                atan2 (y rightEyeWorld - y leftEyeWorld)
                      (x rightEyeWorld - x leftEyeWorld) in
              let model' :=
                {| THREE.position := THREE.mkVector3 centerX centerY 0;
                   THREE.rotation :=
                     THREE.mkVector3 (THREE.x (THREE.rotation model))
                                     (THREE.y (THREE.rotation model)) angle;
                   THREE.scale := THREE.mkVector3 finalScale finalScale finalScale;
                   THREE.visible := true |} in
              Ok (mk (currentFrame this) (scale this) (width this) (heightOffset this)
                     (Some model') (pngImage this) (context2d this))
          | _, _ => Ok this
          end
      | _, _ => Ok this
      end
  end.

Definition updateScale (this : t) (scale_ : R) : t :=
  mk (currentFrame this) scale_ (width this) (heightOffset this)
     (glassesModel this) (pngImage this) (context2d this).

Definition updateWidth (this : t) (width_ : R) : t :=
  mk (currentFrame this) (scale this) width_ (heightOffset this)
     (glassesModel this) (pngImage this) (context2d this).

Definition updateHeightOffset (this : t) (offset : R) : t :=
  mk (currentFrame this) (scale this) (width this) offset
     (glassesModel this) (pngImage this) (context2d this).

(** The bounds of the orthographic camera. *)
Record OrthographicCamera : Type := mkCamera {
  left : R; right : R; top : R; bottom : R
}.

(** The fields of the renderer that [resize] reads or writes: the stored
    canvas size, the camera ([null] before [init]) and the size last given
    to the WebGL renderer ([None] while there is no renderer). *)
Record Viewport : Type := mkViewport {
  canvasWidth : R;
  canvasHeight : R;
  view_camera : option OrthographicCamera;
  view_renderer : option (R * R)
}.

Definition resize (this : Viewport) (width_ height_ : R) : Viewport :=
  match view_camera this, view_renderer this with
  | Some _, Some _ =>
      let aspect := width_ / height_ in
      let frustumSize := 2 in
      mkViewport width_ height_
        (Some {| left := - frustumSize * aspect / 2;
                 right := frustumSize * aspect / 2;
                 top := frustumSize / 2;
                 bottom := - frustumSize / 2 |})
        (Some (width_, height_))
  | _, _ => mkViewport width_ height_ (view_camera this) (view_renderer this)
  end.

End GlassesRenderer.

(** ** VirtualTryOnApp: the detection callback *)

Module VirtualTryOnApp.

Record t : Type := mk {
  glassesRenderer : option GlassesRenderer.t;
  previousLandmarks : option Frame;
  smoothingEnabled : bool;
  outputCanvas : Canvas.Element
}.

(** [onFaceDetected(results)]; [results] is [null] on a cycle without a
    face.  The landmarks written back to [results.landmarks] are the ones
    passed on and stored. *)
Definition onFaceDetected (this : t) (results : option FaceTracker.Results) : outcome t :=
  match results, glassesRenderer this with
  | Some res, Some renderer =>
      let landmarks_ :=
        match smoothingEnabled this, previousLandmarks this with
        | true, Some previous =>
            LandmarkUtils.smoothLandmarks (FaceTracker.landmarks res) (Some previous)
                                          (Some 0.7)
        | _, _ => FaceTracker.landmarks res
        end in
      match GlassesRenderer.updateGlasses renderer (Some landmarks_)
              (Canvas.elt_width (outputCanvas this))
              (Canvas.elt_height (outputCanvas this)) with
      | Ok renderer' =>
          Ok (mk (Some renderer') (Some landmarks_) (smoothingEnabled this)
                 (outputCanvas this))
      | Throw => Throw
      end
  | _, _ => Ok this
  end.

(** One detection cycle as [FaceTracker.onResults] wires it: the raw result
    goes through [processResults] and then to the callback. *)
Definition detection_cycle (this : t) (multiFaceLandmarks : option (list Frame))
    : outcome t :=
  onFaceDetected this (FaceTracker.processResults multiFaceLandmarks).

(** Successive detection cycles; a throw ends the run. *)
Fixpoint run_cycles (this : t) (cycles : list (option (list Frame))) : outcome t :=
  match cycles with
  | [] => Ok this
  | c :: rest =>
      match detection_cycle this c with
      | Ok this' => run_cycles this' rest
      | Throw => Throw
      end
  end.

End VirtualTryOnApp.

(** ** LandmarkUtils.smoothLandmarks over IEEE binary64 *)

(** The same loop with the arithmetic of JavaScript numbers: every [+], [-]
    and [*] rounds to the nearest double. *)
Module Double.
Import PrimFloat.
#[local] Set Warnings "-inexact-float".

Record Landmark : Type := mkLandmark {
  x : float;
  y : float;
  z : option float
}.

Definition Frame : Type := list Landmark.

(** [v || 0]: a missing value, a zero of either sign and NaN are falsy. *)
Definition or_zero (v : option float) : float :=
  match v with
  | Some r => if (eqb r 0%float || is_nan r)%bool then 0%float else r
  | None => 0%float
  end.

Fixpoint smooth_loop (i : nat) (rest : list Landmark) (previousLandmarks : Frame)
    (smoothingFactor : float) (smoothed : Frame) : Frame :=
  match rest with
  | [] => smoothed
  | current :: rest' =>
      let pushed :=
        match nth_error previousLandmarks i with
        | Some previous =>
            {| x := (x previous * smoothingFactor
                     + x current * (1 - smoothingFactor))%float;
               y := (y previous * smoothingFactor
                     + y current * (1 - smoothingFactor))%float;
               z := Some (or_zero (z previous) * smoothingFactor
                          + or_zero (z current) * (1 - smoothingFactor))%float |}
        | None => current
        end in
      smooth_loop (S i) rest' previousLandmarks smoothingFactor (smoothed ++ [pushed])
  end.

Definition smoothLandmarks (currentLandmarks : Frame) (previousLandmarks : option Frame)
    (smoothingFactor : option float) : Frame :=
  let a := match smoothingFactor with Some v => v | None => 0.7%float end in
  match previousLandmarks with
  | None => currentLandmarks
  | Some previous => smooth_loop 0 currentLandmarks previous a []
  end.

(** [Math.min] and [Math.max] on numbers that are not NaN. *)
Definition min (a b : float) : float := if ltb b a then b else a.
Definition max (a b : float) : float := if ltb a b then b else a.

(** A frame of one landmark with every coordinate at [v]. *)
Definition still (v : float) : Frame := [mkLandmark v v (Some v)].

Definition d0_11 : float := 0.11%float.
Definition d0_11_up : float := 0.11000000000000001%float.
Definition d0_2 : float := 0.2%float.
Definition d0_9 : float := 0.9%float.

End Double.

(** ** Vocabulary of the statements *)

(** The exponential blend of one landmark: weight [a] on the previous
    value, [1 - a] on the current one, a missing [z] read as [0]. *)
Definition blend (previous current : Landmark) (a : R) : Landmark :=
  {| x := x previous * a + x current * (1 - a);
     y := y previous * a + y current * (1 - a);
     z := Some (or_zero (z previous) * a + or_zero (z current) * (1 - a)) |}.

(** What the smoothing loop pushes for the element [c] met at index [i]. *)
Definition pushed_at (previousLandmarks : Frame) (a : R) (i : nat) (c : Landmark)
    : Landmark :=
  match nth_error previousLandmarks i with
  | Some p => blend p c a
  | None => c
  end.

(** The smoothing factor in force: the argument, or the default. *)
Definition factor_of (smoothingFactor : option R) : R :=
  match smoothingFactor with Some v => v | None => 0.7 end.

(** Landmark [i] of the frame exists and has [x] and [y] within [[0,1]]. *)
Definition valid_at (lms : Frame) (i : nat) : Prop :=
  exists l, nth_error lms i = Some l /\ 0 <= x l <= 1 /\ 0 <= y l <= 1.

(** Every landmark of the frame carries a [z] coordinate. *)
Definition has_z (lms : Frame) : Prop :=
  Forall (fun l => z l <> None) lms.

(** Every landmark of the frame has [x] and [y] within [[0,1]]. *)
Definition normalized (lms : Frame) : Prop :=
  Forall (fun l => 0 <= x l <= 1 /\ 0 <= y l <= 1) lms.

(** A frame of [n] landmarks given by their index. *)
Definition frame_of (n : nat) (f : nat -> Landmark) : Frame :=
  map f (seq 0 n).

(** A frame of [n] landmarks, all at the centre of the image, except for the
    two eye corners 33 and 263. *)
Definition eyes_frame (n : nat) (leftEye rightEye : Landmark) : Frame :=
  frame_of n (fun i =>
    if (i =? 33)%nat then leftEye
    else if (i =? 263)%nat then rightEye
    else mkLandmark 0.5 0.5 (Some 0)).

(** [m] is the running minimum of [vals] started at [seed]: below the seed
    and every value, and equal to one of them. *)
Definition seeded_min (seed : R) (vals : list R) (m : R) : Prop :=
  m <= seed /\ Forall (fun v => m <= v) vals /\ (m = seed \/ In m vals).

(** [m] is the running maximum of [vals] started at [seed]. *)
Definition seeded_max (seed : R) (vals : list R) (m : R) : Prop :=
  seed <= m /\ Forall (fun v => v <= m) vals /\ (m = seed \/ In m vals).

(** [m] is the least, respectively the greatest, element of [vals]. *)
Definition least_of (vals : list R) (m : R) : Prop :=
  In m vals /\ Forall (fun v => m <= v) vals.
Definition greatest_of (vals : list R) (m : R) : Prop :=
  In m vals /\ Forall (fun v => v <= m) vals.

(** The four corners of the unit square. *)
Definition unit_corners : Frame :=
  [mkLandmark 0 0 None; mkLandmark 1 0 None; mkLandmark 0 1 None; mkLandmark 1 1 None].

(** The test the confidence loop applies to the landmark at [index]. *)
Definition checked_ok (lms : Frame) (index : nat) : bool :=
  match nth_error lms index with
  | Some landmark =>
      Rgeb (x landmark) 0 && Rleb (x landmark) 1
      && Rgeb (y landmark) 0 && Rleb (y landmark) 1
  | None => false
  end.

(** Distance in the plane between two points, their [z] left aside. *)
Definition planar_distance (p q : Landmark) : R :=
  sqrt ((x q - x p) ^ 2 + (y q - y p) ^ 2).

(** A renderer in the 3D-model path with default overlay parameters and a
    model at the origin. *)
Definition default_renderer : GlassesRenderer.t :=
  GlassesRenderer.mk "classic" 1 1 0
    (Some {| THREE.position := THREE.mkVector3 0 0 0;
             THREE.rotation := THREE.mkVector3 0 0 0;
             THREE.scale := THREE.mkVector3 1 1 1;
             THREE.visible := false |})
    None [].

(** A renderer in the flat-image path: frame type ["png"], scale 1 and a
    loaded image of 200 x 100 pixels. *)
Definition png_renderer : GlassesRenderer.t :=
  GlassesRenderer.mk "png" 1 1 0
    (Some {| THREE.position := THREE.mkVector3 0 0 0;
             THREE.rotation := THREE.mkVector3 0 0 0;
             THREE.scale := THREE.mkVector3 1 1 1;
             THREE.visible := false |})
    (Some (Canvas.mkImage 200 100)) [].

(** The eye midpoint in pixels: the midpoint of the two landmarks taken to
    canvas pixels by [LandmarkUtils.normalizeCoordinate]. *)
Definition pixel_midpoint (leftEye rightEye : Landmark) (canvasWidth canvasHeight : R)
    : R * R :=
  let l := LandmarkUtils.normalizeCoordinate leftEye canvasWidth canvasHeight in
  let r := LandmarkUtils.normalizeCoordinate rightEye canvasWidth canvasHeight in
  ((x l + x r) / 2, (y l + y r) / 2).

(** The centre of the rectangle of a [drawImage] call. *)
Definition rect_centre (dx dy dWidth dHeight : R) : R * R :=
  (dx + dWidth / 2, dy + dHeight / 2).

(** A cycle without a face: no landmark list, or an empty one. *)
Definition no_face (cycle : option (list Frame)) : Prop :=
  cycle = None \/ cycle = Some [].

(** The 2D context shows nothing: no image was drawn since the last
    [clearRect]. *)
Definition shows_nothing (ops : list Canvas.Op) : Prop :=
  exists before cx cy cw ch, ops = before ++ [Canvas.clearRect cx cy cw ch].

(** [n] detection cycles that all deliver the frame [current], starting
    from the stored frame [previous]: what is stored afterwards. *)
Fixpoint smooth_rounds (n : nat) (current previous : Frame) (a : R) : Frame :=
  match n with
  | O => previous
  | S k =>
      LandmarkUtils.smoothLandmarks current
        (Some (smooth_rounds k current previous a)) (Some a)
  end.

(** The times at which [onFrame] sends a frame to the face mesh, when it is
    called at the successive [times]. *)
Fixpoint send_times (this : FaceTracker.Tracker) (times : list Z) : list Z :=
  match times with
  | [] => []
  | t :: rest =>
      let '(this', sent) := FaceTracker.onFrame this t in
      if sent then t :: send_times this' rest else send_times this' rest
  end.

(** Each time of [sends] is at least [gap] after the one before it, the
    first one at least [gap] after [last]. *)
Fixpoint spaced (gap last : Z) (sends : list Z) : Prop :=
  match sends with
  | [] => True
  | t :: rest => (t - last >= gap)%Z /\ spaced gap t rest
  end.

(** The values [calculateConfidence] can take. *)
Definition quarter (v : R) : Prop :=
  v = 0 \/ v = 0.25 \/ v = 0.5 \/ v = 0.75 \/ v = 1.

(** The overlay parameters and assets of a renderer: what the user controls
    set. *)
Definition same_settings (r r' : GlassesRenderer.t) : Prop :=
  GlassesRenderer.currentFrame r' = GlassesRenderer.currentFrame r
  /\ GlassesRenderer.scale r' = GlassesRenderer.scale r
  /\ GlassesRenderer.width r' = GlassesRenderer.width r
  /\ GlassesRenderer.heightOffset r' = GlassesRenderer.heightOffset r
  /\ GlassesRenderer.pngImage r' = GlassesRenderer.pngImage r.

(** The same, for a renderer that may not have been created yet. *)
Definition same_renderer_settings (o o' : option GlassesRenderer.t) : Prop :=
  match o, o' with
  | Some r, Some r' => same_settings r r'
  | None, None => True
  | _, _ => False
  end.

(** The renderer takes the 3D-model branch of [updateGlasses]: the frame
    type is not ["png"] or no image was created. *)
Definition model_branch (r : GlassesRenderer.t) : Prop :=
  GlassesRenderer.currentFrame r <> "png"%string
  \/ GlassesRenderer.pngImage r = None.

(** There is no renderer, or one that takes the 3D-model branch. *)
Definition no_flat_image (o : option GlassesRenderer.t) : Prop :=
  match o with
  | Some r => model_branch r
  | None => True
  end.

(** * Properties *)

Import LandmarkUtils.

(** ** The smoothing loop, index by index *)

Section SmoothLoop.

Variable previousLandmarks : Frame.
Variable a : R.

Lemma smooth_loop_length : forall rest i smoothed,
  length (smooth_loop i rest previousLandmarks a smoothed)
  = (length smoothed + length rest)%nat.
Proof.
  induction rest as [|c rest IH]; intros i smoothed; simpl.
  - lia.
  - rewrite IH, length_app. simpl. lia.
Qed.

Lemma smooth_loop_prefix : forall rest i smoothed k,
  (k < length smoothed)%nat ->
  nth_error (smooth_loop i rest previousLandmarks a smoothed) k = nth_error smoothed k.
Proof.
  induction rest as [|c rest IH]; intros i smoothed k Hk; simpl.
  - reflexivity.
  - rewrite IH by (rewrite length_app; simpl; lia).
    now apply nth_error_app1.
Qed.

Lemma smooth_loop_nth : forall rest i smoothed j c,
  nth_error rest j = Some c ->
  nth_error (smooth_loop i rest previousLandmarks a smoothed) (length smoothed + j)
  = Some (pushed_at previousLandmarks a (i + j) c).
Proof.
  induction rest as [|c0 rest IH]; intros i smoothed j c Hj.
  - destruct j; discriminate.
  - destruct j as [|j]; simpl in Hj |- *.
    + injection Hj as ->.
      rewrite smooth_loop_prefix by (rewrite length_app; simpl; lia).
      rewrite !Nat.add_0_r, nth_error_app2 by lia.
      rewrite Nat.sub_diag. simpl. unfold pushed_at, blend.
      destruct (nth_error previousLandmarks i); reflexivity.
    + match goal with
      | |- nth_error (smooth_loop _ _ _ _ ?acc) _ = _ =>
          specialize (IH (S i) acc j c Hj)
      end.
      rewrite length_app in IH. simpl in IH.
      replace (length smoothed + S j)%nat with (length smoothed + 1 + j)%nat by lia.
      rewrite IH. f_equal. f_equal. lia.
Qed.

End SmoothLoop.

Lemma smoothLandmarks_length : forall (cur : Frame) prev a,
  length (smoothLandmarks cur prev a) = length cur.
Proof.
  intros cur [prev|] a; unfold smoothLandmarks; [|reflexivity].
  now rewrite smooth_loop_length.
Qed.

Lemma smoothLandmarks_present : forall (cur prev : Frame) a i c p,
  nth_error cur i = Some c -> nth_error prev i = Some p ->
  nth_error (smoothLandmarks cur (Some prev) a) i = Some (blend p c (factor_of a)).
Proof.
  intros cur prev a i c p Hc Hp. unfold smoothLandmarks.
  change (match a with Some v => v | None => 0.7 end) with (factor_of a).
  pose proof (smooth_loop_nth prev (factor_of a) cur 0%nat [] i c Hc) as H.
  simpl in H. rewrite H. unfold pushed_at. rewrite Hp. reflexivity.
Qed.

Lemma smoothLandmarks_absent : forall (cur prev : Frame) a i c,
  nth_error cur i = Some c -> nth_error prev i = None ->
  nth_error (smoothLandmarks cur (Some prev) a) i = Some c.
Proof.
  intros cur prev a i c Hc Hp. unfold smoothLandmarks.
  pose proof (smooth_loop_nth prev (factor_of a) cur 0%nat [] i c Hc) as H.
  simpl in H. unfold factor_of in H. rewrite H. unfold pushed_at.
  rewrite Hp. reflexivity.
Qed.

Lemma smoothLandmarks_beyond : forall (cur : Frame) prev a i,
  nth_error cur i = None -> nth_error (smoothLandmarks cur prev a) i = None.
Proof.
  intros cur prev a i Hc. apply nth_error_None.
  rewrite smoothLandmarks_length. now apply nth_error_None.
Qed.

(** A blend with a weight in [[0,1]] stays between its two operands. *)
Lemma blend_between : forall u v a,
  0 <= a <= 1 ->
  Rmin u v <= v * a + u * (1 - a) <= Rmax u v.
Proof.
  intros u v a [Ha0 Ha1].
  unfold Rmin, Rmax. destruct (Rle_dec u v) as [Huv|Huv]; split; nra.
Qed.

(** C3. Without a previous frame [smoothLandmarks] returns the current
    frame itself.  With one, the element at any index where both frames
    have a landmark is [previous * a + current * (1 - a)] on [x], [y] and
    [z], a missing [z] counting as 0; [a] is 0.7 when the third argument is
    omitted. *)
Theorem smoothLandmarks_cold_start_and_blend :
  forall (current previous : Frame) (i : nat) (c p : Landmark),
  nth_error current i = Some c ->
  nth_error previous i = Some p ->
  (forall a, smoothLandmarks current None a = current)
  /\ (forall a s,
        nth_error (smoothLandmarks current (Some previous) (Some a)) i = Some s ->
        x s = x p * a + x c * (1 - a)
        /\ y s = y p * a + y c * (1 - a)
        /\ z s = Some (match z p with Some v => v | None => 0 end * a
                       + match z c with Some v => v | None => 0 end * (1 - a)))
  /\ (forall a, nth_error (smoothLandmarks current (Some previous) (Some a)) i
                = Some (blend p c a))
  /\ nth_error (smoothLandmarks current (Some previous) None) i = Some (blend p c 0.7).
Proof.
  intros current previous i c p Hc Hp.
  split; [reflexivity|]. split; [|split].
  - intros a s H.
    rewrite (smoothLandmarks_present _ _ (Some a) _ _ _ Hc Hp) in H.
    injection H as <-. simpl. auto.
  - intros a. exact (smoothLandmarks_present _ _ (Some a) _ _ _ Hc Hp).
  - exact (smoothLandmarks_present _ _ None _ _ _ Hc Hp).
Qed.

Lemma smoothLandmarks_cold_start_and_blend_witness :
  let current := [mkLandmark 1 0 None] in
  let previous := [mkLandmark 0 1 (Some 1)] in
  nth_error (smoothLandmarks current (Some previous) None) 0
  = Some (blend (mkLandmark 0 1 (Some 1)) (mkLandmark 1 0 None) 0.7).
Proof.
  intros current previous.
  apply (smoothLandmarks_cold_start_and_blend current previous 0%nat
           (mkLandmark 1 0 None) (mkLandmark 0 1 (Some 1)) eq_refl eq_refl).
Defined.

(** Reading a frame at an index below its length. *)
Lemma frame_lookup : forall (lms : Frame) i,
  (i < length lms)%nat -> exists l, nth_error lms i = Some l.
Proof.
  intros lms i Hi. destruct (nth_error lms i) as [l|] eqn:E.
  - now exists l.
  - apply nth_error_None in E. lia.
Qed.

Lemma blend_one : forall p c,
  x (blend p c 1) = x p /\ y (blend p c 1) = y p
  /\ or_zero (z (blend p c 1)) = or_zero (z p).
Proof. intros p c. simpl. repeat split; ring. Qed.

Lemma blend_zero : forall p c,
  x (blend p c 0) = x c /\ y (blend p c 0) = y c
  /\ or_zero (z (blend p c 0)) = or_zero (z c).
Proof. intros p c. simpl. repeat split; ring. Qed.

(** A landmark with its [z] is rebuilt by its three coordinates. *)
Lemma landmark_eq : forall l m,
  z l <> None -> x m = x l -> y m = y l -> z m = Some (or_zero (z l)) -> m = l.
Proof.
  intros [lx ly [lz|]] [mx my mz] Hz; simpl in *; intros -> -> ->; congruence.
Qed.

Lemma smoothLandmarks_one : forall (F P : Frame),
  length F = length P -> has_z P -> smoothLandmarks F (Some P) (Some 1) = P.
Proof.
  intros F P Hlen HP. apply nth_error_ext. intros i.
  destruct (nth_error P i) as [p|] eqn:Ep.
  - destruct (frame_lookup F i) as [f Ef].
    { rewrite Hlen. apply nth_error_Some. congruence. }
    rewrite (smoothLandmarks_present F P (Some 1) i f p Ef Ep). f_equal.
    unfold has_z in HP. rewrite Forall_forall in HP.
    apply landmark_eq.
    + apply HP. eapply nth_error_In; eauto.
    + simpl; ring.
    + simpl; ring.
    + simpl. f_equal. ring.
  - apply smoothLandmarks_beyond. apply nth_error_None.
    rewrite Hlen. now apply nth_error_None.
Qed.

Lemma smoothLandmarks_zero : forall (F P : Frame),
  length F = length P -> has_z F -> smoothLandmarks F (Some P) (Some 0) = F.
Proof.
  intros F P Hlen HF. apply nth_error_ext. intros i.
  destruct (nth_error F i) as [f|] eqn:Ef.
  - destruct (frame_lookup P i) as [p Ep].
    { rewrite <- Hlen. apply nth_error_Some. congruence. }
    rewrite (smoothLandmarks_present F P (Some 0) i f p Ef Ep). f_equal.
    unfold has_z in HF. rewrite Forall_forall in HF.
    apply landmark_eq.
    + apply HF. eapply nth_error_In; eauto.
    + simpl; ring.
    + simpl; ring.
    + simpl. f_equal. ring.
  - now apply smoothLandmarks_beyond.
Qed.

(** C9 (in exact arithmetic). For frames [F] and [P] of equal length, the
    smoothed [x] at every index lies between the smaller and the larger of
    [F[i].x] and [P[i].x], for the default factor and for any factor in
    [[0,1]], when the blend is computed without rounding.  With factor 1
    the output has the coordinates of [P] (and is [P] itself when the
    landmarks of [P] carry their [z]); with factor 0 the same holds
    for [F]. *)
Theorem smoothLandmarks_convex_and_endpoints :
  forall (F P : Frame),
  length F = length P ->
  (forall i, (i < length F)%nat ->
     exists f p s,
       nth_error F i = Some f /\ nth_error P i = Some p
       /\ nth_error (smoothLandmarks F (Some P) None) i = Some s
       /\ Rmin (x f) (x p) <= x s <= Rmax (x f) (x p))
  /\ (forall a i, 0 <= a <= 1 -> (i < length F)%nat ->
     exists f p s,
       nth_error F i = Some f /\ nth_error P i = Some p
       /\ nth_error (smoothLandmarks F (Some P) (Some a)) i = Some s
       /\ Rmin (x f) (x p) <= x s <= Rmax (x f) (x p))
  /\ (forall i p, nth_error P i = Some p ->
     exists s,
       nth_error (smoothLandmarks F (Some P) (Some 1)) i = Some s
       /\ x s = x p /\ y s = y p /\ or_zero (z s) = or_zero (z p))
  /\ (has_z P -> smoothLandmarks F (Some P) (Some 1) = P)
  /\ (forall i f, nth_error F i = Some f ->
     exists s,
       nth_error (smoothLandmarks F (Some P) (Some 0)) i = Some s
       /\ x s = x f /\ y s = y f /\ or_zero (z s) = or_zero (z f))
  /\ (has_z F -> smoothLandmarks F (Some P) (Some 0) = F).
Proof.
  intros F P Hlen.
  assert (Hgen : forall a i, 0 <= factor_of a <= 1 -> (i < length F)%nat ->
     exists f p s,
       nth_error F i = Some f /\ nth_error P i = Some p
       /\ nth_error (smoothLandmarks F (Some P) a) i = Some s
       /\ Rmin (x f) (x p) <= x s <= Rmax (x f) (x p)).
  { intros a i Ha Hi.
    destruct (frame_lookup F i Hi) as [f Ef].
    destruct (frame_lookup P i) as [p Ep]; [lia|].
    exists f, p, (blend p f (factor_of a)).
    repeat split; auto using smoothLandmarks_present;
      simpl; now apply blend_between. }
  split; [|split; [|split; [|split; [|split]]]].
  - intros i Hi. apply Hgen; auto. simpl. lra.
  - intros a i Ha Hi. now apply (Hgen (Some a)).
  - intros i p Ep.
    destruct (frame_lookup F i) as [f Ef].
    { rewrite Hlen. apply nth_error_Some. congruence. }
    exists (blend p f 1). split.
    + exact (smoothLandmarks_present F P (Some 1) i f p Ef Ep).
    + apply blend_one.
  - now apply smoothLandmarks_one.
  - intros i f Ef.
    destruct (frame_lookup P i) as [p Ep].
    { rewrite <- Hlen. apply nth_error_Some. congruence. }
    exists (blend p f 0). split.
    + exact (smoothLandmarks_present F P (Some 0) i f p Ef Ep).
    + apply blend_zero.
  - now apply smoothLandmarks_zero.
Qed.

Lemma smoothLandmarks_convex_and_endpoints_witness :
  let F := [mkLandmark 0.2 0.4 (Some 0); mkLandmark 0.9 0.1 (Some 1)] in
  let P := [mkLandmark 0.6 0.3 (Some 0.5); mkLandmark 0.1 0.8 (Some 0)] in
  smoothLandmarks F (Some P) (Some 1) = P /\ smoothLandmarks F (Some P) (Some 0) = F.
Proof.
  intros F P.
  destruct (smoothLandmarks_convex_and_endpoints F P eq_refl)
    as (_ & _ & _ & H1 & _ & H0).
  split.
  - apply H1. repeat constructor; discriminate.
  - apply H0. repeat constructor; discriminate.
Defined.

(** C9, in doubles: with [F = P] at 0.11 and the default factor the code
    computes [0.11 * 0.7 + 0.11 * (1 - 0.7)], which rounds to
    0.11000000000000001, above both [F[0].x] and [P[0].x]. *)
Lemma smoothLandmarks_double_leaves_interval :
  exists s,
    Double.smoothLandmarks (Double.still Double.d0_11)
      (Some (Double.still Double.d0_11)) None = [s]
    /\ Double.x s = Double.d0_11_up
    /\ PrimFloat.ltb (Double.max Double.d0_11 Double.d0_11) (Double.x s) = true
    /\ PrimFloat.leb (Double.x s) (Double.max Double.d0_11 Double.d0_11) = false.
Proof.
  eexists. split; [reflexivity|].
  split; [reflexivity|]. split; reflexivity.
Qed.

(** In doubles the two ends of the factor give back the frames themselves on
    such values: factor 1 returns [P] and factor 0 returns [F]. *)
Lemma smoothLandmarks_double_ends_sample :
  Double.smoothLandmarks (Double.still Double.d0_9) (Some (Double.still Double.d0_2))
    (Some PrimFloat.one) = Double.still Double.d0_2
  /\ Double.smoothLandmarks (Double.still Double.d0_9) (Some (Double.still Double.d0_2))
       (Some PrimFloat.zero) = Double.still Double.d0_9.
Proof. split; reflexivity. Qed.

(** C10. [smoothLandmarks] returns a frame whatever the two lengths are:
    the result always has the length of the current frame, and an index
    with no previous counterpart (no previous frame at all, or a shorter
    one) carries the current landmark unchanged. *)
Theorem smoothLandmarks_total_length_passthrough :
  forall (current : Frame) (previous : option Frame) (a : option R),
  exists smoothed : Frame,
    smoothLandmarks current previous a = smoothed
    /\ length smoothed = length current
    /\ forall i c,
         nth_error current i = Some c ->
         match previous with
         | Some prev => nth_error prev i = None
         | None => True
         end ->
         nth_error smoothed i = Some c.
Proof.
  intros current previous a. eexists. split; [reflexivity|]. split.
  - apply smoothLandmarks_length.
  - intros i c Hc Hp. destruct previous as [prev|].
    + now apply smoothLandmarks_absent.
    + exact Hc.
Qed.

Lemma smoothLandmarks_total_length_passthrough_witness :
  let current := [mkLandmark 0.2 0.4 None; mkLandmark 0.9 0.1 (Some 1)] in
  let previous := [mkLandmark 0.6 0.3 None] in
  length (smoothLandmarks current (Some previous) None) = 2%nat
  /\ nth_error (smoothLandmarks current (Some previous) None) 1
     = Some (mkLandmark 0.9 0.1 (Some 1)).
Proof.
  intros current previous.
  destruct (smoothLandmarks_total_length_passthrough current (Some previous) None)
    as (smoothed & <- & Hlen & Hpass).
  split.
  - exact Hlen.
  - apply Hpass; reflexivity.
Defined.

(** ** Confidence *)

Import FaceTracker.

Lemma Rleb_true : forall a b, Rleb a b = true <-> a <= b.
Proof.
  intros a b. unfold Rleb. destruct (Rle_dec a b); split; auto; discriminate.
Qed.

Lemma Rgeb_true : forall a b, Rgeb a b = true <-> b <= a.
Proof.
  intros a b. unfold Rgeb.
  destruct (Rge_dec a b); split; auto; try discriminate; intros; lra.
Qed.

Lemma checked_ok_valid : forall lms i, checked_ok lms i = true <-> valid_at lms i.
Proof.
  intros lms i. unfold checked_ok, valid_at.
  destruct (nth_error lms i) as [l|].
  - rewrite !andb_true_iff, !Rleb_true, !Rgeb_true. split.
    + intros [[[H1 H2] H3] H4]. exists l. auto.
    + intros (l' & E & [H1 H2] & [H3 H4]). injection E as <-. auto.
  - split; [discriminate|]. intros (l' & E & _). discriminate.
Qed.

Lemma count_loop_filter : forall lms indices n,
  count_loop lms indices n = (n + length (filter (checked_ok lms) indices))%nat.
Proof.
  intros lms indices. induction indices as [|i rest IH]; intros n; simpl.
  - lia.
  - rewrite IH. unfold checked_ok at 2.
    destruct (nth_error lms i) as [l|]; [|lia].
    destruct (Rgeb (x l) 0 && Rleb (x l) 1 && Rgeb (y l) 0 && Rleb (y l) 1);
      simpl; lia.
Qed.

Lemma filter_length_perm : forall (f : nat -> bool) l l',
  Permutation l l' -> length (filter f l) = length (filter f l').
Proof.
  intros f l l' HP. induction HP; simpl.
  - reflexivity.
  - destruct (f x0); simpl; congruence.
  - destruct (f x0), (f y0); reflexivity.
  - congruence.
Qed.

Lemma filter_length_split : forall (f : nat -> bool) yes no,
  Forall (fun i => f i = true) yes -> Forall (fun i => f i = false) no ->
  length (filter f (yes ++ no)) = length yes.
Proof.
  intros f yes no Hy Hn. rewrite filter_app, length_app.
  assert (E1 : filter f yes = yes).
  { induction Hy; simpl; [reflexivity|]. rewrite H. congruence. }
  assert (E2 : filter f no = []).
  { induction Hn; simpl; [reflexivity|]. now rewrite H. }
  rewrite E1, E2. simpl. lia.
Qed.

(** The count the loop of [calculateConfidence] ends with. *)
Lemma count_loop_keyIndices : forall lms valid_ix invalid_ix,
  Permutation (valid_ix ++ invalid_ix) keyIndices ->
  Forall (valid_at lms) valid_ix ->
  Forall (fun i => ~ valid_at lms i) invalid_ix ->
  count_loop lms keyIndices 0 = length valid_ix.
Proof.
  intros lms vs ivs HP Hv Hi.
  rewrite count_loop_filter, Nat.add_0_l.
  rewrite <- (filter_length_perm _ _ _ HP).
  apply filter_length_split.
  - eapply Forall_impl; [|exact Hv]. intros i. apply checked_ok_valid.
  - eapply Forall_impl; [|exact Hi]. intros i Hn.
    destruct (checked_ok lms i) eqn:E; [|reflexivity].
    apply checked_ok_valid in E. contradiction.
Qed.

(** C7. [calculateConfidence] looks at the landmarks 33, 263, 1 and 9 only
    and returns the number of them that exist with [x] and [y] in [[0,1]],
    divided by four: 1 when all four are valid, 0 when none is, 0.5 for two
    of the four. *)
Theorem calculateConfidence_exact_fraction :
  forall (lms : Frame) (valid_ix invalid_ix : list nat),
  Permutation (valid_ix ++ invalid_ix) [33; 263; 1; 9]%nat ->
  Forall (valid_at lms) valid_ix ->
  Forall (fun i => ~ valid_at lms i) invalid_ix ->
  calculateConfidence (Some lms) = INR (length valid_ix) / 4
  /\ (invalid_ix = [] -> calculateConfidence (Some lms) = 1)
  /\ (valid_ix = [] -> calculateConfidence (Some lms) = 0)
  /\ (length valid_ix = 2%nat -> calculateConfidence (Some lms) = 0.5).
Proof.
  intros lms vs ivs HP Hv Hi.
  assert (Hmain : calculateConfidence (Some lms) = INR (length vs) / 4).
  { unfold calculateConfidence.
    destruct (length lms =? 0)%nat eqn:E.
    - apply Nat.eqb_eq in E.
      destruct vs as [|v vs'].
      + simpl. lra.
      + inversion Hv as [|? ? (l & Hl & _) _]; subst.
        destruct lms; [destruct v; discriminate | discriminate].
    - rewrite (count_loop_keyIndices lms vs ivs HP Hv Hi).
      simpl (length keyIndices). simpl (INR 4). f_equal. lra. }
  split; [exact Hmain|]. rewrite Hmain.
  pose proof (Permutation_length HP) as HL. rewrite length_app in HL. simpl in HL.
  repeat split.
  - intros ->. simpl in HL. rewrite Nat.add_0_r in HL. rewrite HL. simpl. lra.
  - intros ->. simpl. lra.
  - intros ->. simpl. lra.
Qed.

Lemma nth_error_frame_of : forall n f i,
  (i < n)%nat -> nth_error (frame_of n f) i = Some (f i).
Proof.
  intros n f i Hi. unfold frame_of.
  rewrite nth_error_map, nth_error_seq.
  apply Nat.ltb_lt in Hi. now rewrite Hi.
Qed.

Lemma nth_error_eyes_frame : forall n l r,
  (263 < n)%nat ->
  nth_error (eyes_frame n l r) 33 = Some l /\ nth_error (eyes_frame n l r) 263 = Some r.
Proof.
  intros n l r Hn. unfold eyes_frame.
  split; rewrite nth_error_frame_of by lia; reflexivity.
Qed.

Lemma calculateConfidence_exact_fraction_witness :
  calculateConfidence
    (Some (eyes_frame 468 (mkLandmark 2 0.5 None) (mkLandmark 0.6 (-1) None)))
  = 0.5.
Proof.
  set (lms := eyes_frame 468 (mkLandmark 2 0.5 None) (mkLandmark 0.6 (-1) None)).
  destruct (nth_error_eyes_frame 468 (mkLandmark 2 0.5 None) (mkLandmark 0.6 (-1) None))
    as [E33 E263]; [lia|]. fold lms in E33, E263.
  refine (proj2 (proj2 (proj2
    (calculateConfidence_exact_fraction lms [1; 9]%nat [33; 263]%nat _ _ _))) eq_refl).
  - apply (Permutation_app_comm [1; 9]%nat [33; 263]%nat).
  - repeat constructor;
      (eexists; split;
       [unfold lms, eyes_frame; rewrite nth_error_frame_of by lia; reflexivity
       | simpl; lra]).
  - repeat constructor; intros (l & E & Hx & Hy).
    + rewrite E33 in E. injection E as <-. simpl in Hx. lra.
    + rewrite E263 in E. injection E as <-. simpl in Hy. lra.
Defined.

(** ** Bounding rectangle *)

(** The first component of the scan is the running minimum of the [x]s. *)
Lemma rect_loop_spec : forall (lms : list Landmark) minX minY maxX maxY,
  exists minX' minY' maxX' maxY',
    rect_loop lms minX minY maxX maxY = (minX', minY', maxX', maxY')
    /\ seeded_min minX (map x lms) minX'
    /\ seeded_min minY (map y lms) minY'
    /\ seeded_max maxX (map x lms) maxX'
    /\ seeded_max maxY (map y lms) maxY'.
Proof.
  induction lms as [|l rest IH]; intros minX minY maxX maxY; simpl.
  - exists minX, minY, maxX, maxY. unfold seeded_min, seeded_max.
    repeat split; auto; lra.
  - destruct (IH (Rmin minX (x l)) (Rmin minY (y l)) (Rmax maxX (x l)) (Rmax maxY (y l)))
      as (a & b & c & d & E & (A1 & A2 & A3) & (B1 & B2 & B3)
          & (C1 & C2 & C3) & (D1 & D2 & D3)).
    exists a, b, c, d. split; [exact E|].
    pose proof (Rmin_l minX (x l)). pose proof (Rmin_r minX (x l)).
    pose proof (Rmin_l minY (y l)). pose proof (Rmin_r minY (y l)).
    pose proof (Rmax_l maxX (x l)). pose proof (Rmax_r maxX (x l)).
    pose proof (Rmax_l maxY (y l)). pose proof (Rmax_r maxY (y l)).
    unfold seeded_min, seeded_max.
    repeat split; try lra; try (constructor; [lra|assumption]).
    + destruct A3 as [->|A3]; [|now right; right].
      unfold Rmin. destruct (Rle_dec minX (x l)); [now left|now right; left].
    + destruct B3 as [->|B3]; [|now right; right].
      unfold Rmin. destruct (Rle_dec minY (y l)); [now left|now right; left].
    + destruct C3 as [->|C3]; [|now right; right].
      unfold Rmax. destruct (Rle_dec maxX (x l)); [now right; left|now left].
    + destruct D3 as [->|D3]; [|now right; right].
      unfold Rmax. destruct (Rle_dec maxY (y l)); [now right; left|now left].
Qed.

(** On values within [[0,1]] the running minimum seeded with 1 is the least
    value, and the running maximum seeded with 0 the greatest. *)
Lemma seeded_min_least : forall vals m,
  vals <> [] -> Forall (fun v => 0 <= v <= 1) vals ->
  seeded_min 1 vals m -> least_of vals m.
Proof.
  intros vals m Hne Hr (H1 & H2 & H3). split; [|exact H2].
  destruct H3 as [->|H3]; [|exact H3].
  destruct vals as [|v rest]; [congruence|].
  inversion Hr; inversion H2; subst. left. lra.
Qed.

Lemma seeded_max_greatest : forall vals m,
  vals <> [] -> Forall (fun v => 0 <= v <= 1) vals ->
  seeded_max 0 vals m -> greatest_of vals m.
Proof.
  intros vals m Hne Hr (H1 & H2 & H3). split; [|exact H2].
  destruct H3 as [->|H3]; [|exact H3].
  destruct vals as [|v rest]; [congruence|].
  inversion Hr; inversion H2; subst. left. lra.
Qed.

Lemma normalized_xs : forall lms,
  normalized lms -> Forall (fun v => 0 <= v <= 1) (map x lms).
Proof.
  intros lms H. induction H; simpl; constructor; tauto.
Qed.

Lemma normalized_ys : forall lms,
  normalized lms -> Forall (fun v => 0 <= v <= 1) (map y lms).
Proof.
  intros lms H. induction H; simpl; constructor; tauto.
Qed.

Lemma calculateFaceRect_nonempty : forall lms : Frame,
  lms <> [] ->
  exists minX minY maxX maxY,
    calculateFaceRect (Some lms)
    = Some (Rect.mk minX minY (maxX - minX) (maxY - minY)
                    ((minX + maxX) / 2) ((minY + maxY) / 2))
    /\ seeded_min 1 (map x lms) minX /\ seeded_min 1 (map y lms) minY
    /\ seeded_max 0 (map x lms) maxX /\ seeded_max 0 (map y lms) maxY.
Proof.
  intros lms Hne. unfold calculateFaceRect.
  destruct lms as [|l rest]; [congruence|].
  change (length (l :: rest) =? 0)%nat with false. cbv iota.
  destruct (rect_loop_spec (l :: rest) 1 1 0 0)
    as (a & b & c & d & E & HA & HB & HC & HD).
  exists a, b, c, d. rewrite E. auto.
Qed.

(** The unit square: corners plus any points inside it. *)
Lemma calculateFaceRect_unit_square : forall interior : Frame,
  normalized interior ->
  calculateFaceRect (Some (unit_corners ++ interior))
  = Some (Rect.mk 0 0 1 1 0.5 0.5).
Proof.
  intros interior Hin.
  set (lms := unit_corners ++ interior).
  assert (Hne : lms <> []) by discriminate.
  assert (Hn : normalized lms).
  { apply Forall_app. split; [|exact Hin].
    repeat constructor; simpl; lra. }
  destruct (calculateFaceRect_nonempty lms Hne)
    as (a & b & c & d & E & HA & HB & HC & HD).
  assert (Hx : map x lms <> []) by discriminate.
  assert (Hy : map y lms <> []) by discriminate.
  apply (seeded_min_least _ _ Hx (normalized_xs _ Hn)) in HA.
  apply (seeded_min_least _ _ Hy (normalized_ys _ Hn)) in HB.
  apply (seeded_max_greatest _ _ Hx (normalized_xs _ Hn)) in HC.
  apply (seeded_max_greatest _ _ Hy (normalized_ys _ Hn)) in HD.
  assert (Ha : a = 0).
  { destruct HA as [I A]. pose proof (normalized_xs _ Hn) as N.
    rewrite Forall_forall in N. specialize (N a I).
    inversion A; subst. simpl in *. lra. }
  assert (Hb : b = 0).
  { destruct HB as [I A]. pose proof (normalized_ys _ Hn) as N.
    rewrite Forall_forall in N. specialize (N b I).
    inversion A; subst. simpl in *. lra. }
  assert (Hc : c = 1).
  { destruct HC as [I A]. pose proof (normalized_xs _ Hn) as N.
    rewrite Forall_forall in N. specialize (N c I).
    inversion A as [|? ? _ A']; subst. inversion A'; subst. simpl in *. lra. }
  assert (Hd : d = 1).
  { destruct HD as [I A]. pose proof (normalized_ys _ Hn) as N.
    rewrite Forall_forall in N. specialize (N d I).
    inversion A as [|? ? _ A']; subst. inversion A' as [|? ? _ A'']; subst.
    inversion A''; subst. simpl in *. lra. }
  etransitivity; [exact E|]. subst a b c d. f_equal. f_equal; lra.
Qed.

(** C2 (the empty frame set apart). For a frame with at least one
    landmark [calculateFaceRect] returns
    [{x: minX, y: minY, width: maxX - minX, height: maxY - minY, centerX,
    centerY}] where [minX], [minY] are the running minima of the landmark
    [x]s and [y]s started at 1 and [maxX], [maxY] the running maxima
    started at 0: the least and greatest coordinates whenever the landmarks
    lie in the unit square.  The corners of the unit square plus points
    inside it give [{x: 0, y: 0, width: 1, height: 1, centerX: 0.5,
    centerY: 0.5}].  On the empty frame the function returns [null]. *)
Theorem calculateFaceRect_running_min_max :
  forall lms : Frame,
  lms <> [] ->
  (exists minX minY maxX maxY,
     calculateFaceRect (Some lms)
     = Some {| Rect.x := minX; Rect.y := minY;
               Rect.width := maxX - minX; Rect.height := maxY - minY;
               Rect.centerX := (minX + maxX) / 2;
               Rect.centerY := (minY + maxY) / 2 |}
     /\ seeded_min 1 (map x lms) minX /\ seeded_min 1 (map y lms) minY
     /\ seeded_max 0 (map x lms) maxX /\ seeded_max 0 (map y lms) maxY
     /\ (normalized lms ->
         least_of (map x lms) minX /\ least_of (map y lms) minY
         /\ greatest_of (map x lms) maxX /\ greatest_of (map y lms) maxY))
  /\ (forall interior : Frame,
        normalized interior ->
        calculateFaceRect (Some (unit_corners ++ interior))
        = Some (Rect.mk 0 0 1 1 0.5 0.5))
  /\ calculateFaceRect (Some []) = None
  /\ calculateFaceRect None = None.
Proof.
  intros lms Hne. split; [|split; [|split]].
  - destruct (calculateFaceRect_nonempty lms Hne)
      as (a & b & c & d & E & HA & HB & HC & HD).
    assert (Hx : map x lms <> []) by (destruct lms; [congruence|discriminate]).
    assert (Hy : map y lms <> []) by (destruct lms; [congruence|discriminate]).
    exists a, b, c, d. do 5 (split; [assumption|]).
    intros Hn.
    pose proof (normalized_xs lms Hn) as Nx.
    pose proof (normalized_ys lms Hn) as Ny.
    auto using seeded_min_least, seeded_max_greatest.
  - apply calculateFaceRect_unit_square.
  - reflexivity.
  - reflexivity.
Qed.

Lemma calculateFaceRect_running_min_max_witness :
  calculateFaceRect (Some (unit_corners ++ [mkLandmark 0.25 0.75 (Some 0)]))
  = Some (Rect.mk 0 0 1 1 0.5 0.5).
Proof.
  refine (proj1 (proj2
    (calculateFaceRect_running_min_max (unit_corners ++ [mkLandmark 0.25 0.75 (Some 0)]) _))
    [mkLandmark 0.25 0.75 (Some 0)] _).
  - discriminate.
  - repeat constructor; simpl; lra.
Defined.

(** C2, the empty frame: the guard returns [null], so no rectangle, of
    zero size or other, comes out. *)
Lemma calculateFaceRect_empty_frame_null :
  calculateFaceRect (Some []) = None
  /\ ~ (exists r, calculateFaceRect (Some []) = Some r
                  /\ Rect.x r = 0 /\ Rect.y r = 0
                  /\ Rect.width r = 0 /\ Rect.height r = 0).
Proof.
  split; [reflexivity|]. intros (r & E & _). discriminate.
Qed.

(** ** Two-argument arctangent *)

Lemma atan2_right : forall dy dx, 0 < dx -> atan2 dy dx = atan (dy / dx).
Proof.
  intros dy dx H. unfold atan2. destruct (Rlt_dec 0 dx); [reflexivity|lra].
Qed.

Lemma atan2_zero_right : forall dx, 0 <= dx -> atan2 0 dx = 0.
Proof.
  intros dx H. unfold atan2.
  destruct (Rlt_dec 0 dx).
  - unfold Rdiv. rewrite Rmult_0_l. apply atan_0.
  - destruct (Rlt_dec dx 0); [lra|].
    destruct (Rlt_dec 0 0); [lra|reflexivity].
Qed.

Lemma atan2_zero_left : forall dx, dx < 0 -> atan2 0 dx = PI.
Proof.
  intros dx H. unfold atan2.
  destruct (Rlt_dec 0 dx); [lra|].
  destruct (Rlt_dec dx 0); [|lra].
  destruct (Rle_dec 0 0); [|lra].
  unfold Rdiv. rewrite Rmult_0_l, atan_0. ring.
Qed.

(** The angle lies in [(-PI, PI]]. *)
Lemma atan2_range : forall dy dx, - PI < atan2 dy dx <= PI.
Proof.
  intros dy dx. pose proof PI_RGT_0 as HPI.
  pose proof (atan_bound (dy / dx)) as [Hlo Hhi].
  unfold atan2.
  destruct (Rlt_dec 0 dx) as [Hp|Hp]; [lra|].
  destruct (Rlt_dec dx 0) as [Hn|Hn].
  - assert (Hinv : / dx < 0) by now apply Rinv_lt_0_compat.
    destruct (Rle_dec 0 dy) as [Hy|Hy].
    + assert (dy / dx <= 0) by (unfold Rdiv; nra).
      assert (atan (dy / dx) <= 0).
      { destruct (Req_dec (dy / dx) 0) as [->|Hne].
        - rewrite atan_0. lra.
        - rewrite <- atan_0. left. apply atan_increasing. lra. }
      lra.
    + assert (0 < dy / dx) by (unfold Rdiv; nra).
      assert (0 < atan (dy / dx)).
      { rewrite <- atan_0. now apply atan_increasing. }
      lra.
  - destruct (Rlt_dec 0 dy); [lra|].
    destruct (Rlt_dec dy 0); lra.
Qed.

(** The length of [(dx, dy)] with its horizontal part factored out. *)
Lemma hypot_factor : forall dy dx,
  dx <> 0 ->
  sqrt (dx * dx + dy * dy) = Rabs dx * sqrt (1 + (dy / dx)²).
Proof.
  intros dy dx Hdx.
  replace (dx * dx + dy * dy) with (Rsqr dx * (1 + (dy / dx)²))
    by (unfold Rsqr; field; exact Hdx).
  rewrite sqrt_mult.
  - now rewrite sqrt_Rsqr_abs.
  - apply Rle_0_sqr.
  - pose proof (Rle_0_sqr (dy / dx)). lra.
Qed.

(** [atan t] is the angle of the vector [(1, t)]. *)
Lemma atan_polar : forall t,
  sqrt (1 + t²) * cos (atan t) = 1 /\ sqrt (1 + t²) * sin (atan t) = t.
Proof.
  intros t. rewrite cos_atan, sin_atan.
  assert (0 < sqrt (1 + t²)).
  { apply sqrt_lt_R0. pose proof (Rle_0_sqr t). lra. }
  split; field; lra.
Qed.

(** [atan2 dy dx] is the angle of the vector [(dx, dy)]: with its length
    [r] the vector is [(r cos, r sin)] of that angle. *)
Lemma atan2_polar : forall dy dx,
  let r := sqrt (dx * dx + dy * dy) in
  r * cos (atan2 dy dx) = dx /\ r * sin (atan2 dy dx) = dy.
Proof.
  intros dy dx r. unfold atan2.
  destruct (Rlt_dec 0 dx) as [Hp|Hp]; [|destruct (Rlt_dec dx 0) as [Hn|Hn]].
  - unfold r. rewrite hypot_factor by lra. rewrite Rabs_right by lra.
    destruct (atan_polar (dy / dx)) as [Hc Hs].
    rewrite !Rmult_assoc, Hc, Hs. split; field; lra.
  - assert (Hc' : forall u, cos (u - PI) = - cos u).
    { intros u. rewrite cos_minus, cos_PI, sin_PI. ring. }
    assert (Hs' : forall u, sin (u - PI) = - sin u).
    { intros u. rewrite sin_minus, cos_PI, sin_PI. ring. }
    unfold r. rewrite hypot_factor by lra. rewrite Rabs_left by lra.
    destruct (atan_polar (dy / dx)) as [Hc Hs].
    destruct (Rle_dec 0 dy).
    + rewrite neg_cos, neg_sin.
      replace (- dx * sqrt (1 + (dy / dx)²) * - cos (atan (dy / dx)))
        with (dx * (sqrt (1 + (dy / dx)²) * cos (atan (dy / dx)))) by ring.
      replace (- dx * sqrt (1 + (dy / dx)²) * - sin (atan (dy / dx)))
        with (dx * (sqrt (1 + (dy / dx)²) * sin (atan (dy / dx)))) by ring.
      rewrite Hc, Hs. split; field; lra.
    + rewrite Hc', Hs'.
      replace (- dx * sqrt (1 + (dy / dx)²) * - cos (atan (dy / dx)))
        with (dx * (sqrt (1 + (dy / dx)²) * cos (atan (dy / dx)))) by ring.
      replace (- dx * sqrt (1 + (dy / dx)²) * - sin (atan (dy / dx)))
        with (dx * (sqrt (1 + (dy / dx)²) * sin (atan (dy / dx)))) by ring.
      rewrite Hc, Hs. split; field; lra.
  - assert (dx = 0) by lra. subst dx.
    assert (Hr : r = Rabs dy).
    { unfold r. replace (0 * 0 + dy * dy) with (Rsqr dy) by (unfold Rsqr; ring).
      apply sqrt_Rsqr_abs. }
    rewrite Hr.
    destruct (Rlt_dec 0 dy); [|destruct (Rlt_dec dy 0)].
    + rewrite cos_PI2, sin_PI2, Rabs_right by lra. split; ring.
    + rewrite cos_neg, sin_neg, cos_PI2, sin_PI2, Rabs_left by lra. split; ring.
    + assert (dy = 0) by lra. subst dy. rewrite Rabs_R0. split; ring.
Qed.

(** ** Head pose *)

(** C8 (level eyes made precise). [calculateHeadPose] returns
    [{pitch: 0, yaw: 0, roll: 0}] when the left eye centre, the right eye
    centre or the nose tip is missing.  Otherwise
    [roll = atan2(dy_eyes, dx_eyes)],
    [yaw = atan2(nose.x - eyeCenter.x, 0.1)] and
    [pitch = atan2(nose.y - eyeCenter.y, 0.1)].  A nose at the eye-centre
    [x] gives yaw 0.  Level eyes give roll 0 when the right eye is not to
    the left of the left eye, and roll [PI] when it is. *)
Theorem calculateHeadPose_angles :
  forall (k : KeyLandmarks),
  ((leftEyeCenter k = None \/ rightEyeCenter k = None \/ noseTip k = None) ->
   calculateHeadPose k = {| Pose.pitch := 0; Pose.yaw := 0; Pose.roll := 0 |})
  /\ (forall leftEye rightEye nose,
        leftEyeCenter k = Some leftEye ->
        rightEyeCenter k = Some rightEye ->
        noseTip k = Some nose ->
        let pose := calculateHeadPose k in
        Pose.roll pose = atan2 (y rightEye - y leftEye) (x rightEye - x leftEye)
        /\ Pose.yaw pose = atan2 (x nose - (x leftEye + x rightEye) / 2) 0.1
        /\ Pose.pitch pose = atan2 (y nose - (y leftEye + y rightEye) / 2) 0.1
        /\ (x nose = (x leftEye + x rightEye) / 2 -> Pose.yaw pose = 0)
        /\ (y leftEye = y rightEye -> x leftEye <= x rightEye -> Pose.roll pose = 0)
        /\ (y leftEye = y rightEye -> x rightEye < x leftEye -> Pose.roll pose = PI)).
Proof.
  intros k. split.
  - unfold calculateHeadPose.
    intros [H|[H|H]]; rewrite H.
    + reflexivity.
    + destruct (leftEyeCenter k); reflexivity.
    + destruct (leftEyeCenter k), (rightEyeCenter k); reflexivity.
  - intros l r n Hl Hr Hn pose.
    assert (E : pose = {| Pose.pitch := atan2 (y n - (y l + y r) / 2) 0.1;
                          Pose.yaw := atan2 (x n - (x l + x r) / 2) 0.1;
                          Pose.roll := atan2 (y r - y l) (x r - x l) |}).
    { unfold pose, calculateHeadPose. rewrite Hl, Hr, Hn. reflexivity. }
    rewrite E. simpl. repeat split.
    + intros ->. replace ((x l + x r) / 2 - (x l + x r) / 2) with 0 by ring.
      apply atan2_zero_right. lra.
    + intros -> Hx. replace (y r - y r) with 0 by ring.
      apply atan2_zero_right. lra.
    + intros -> Hx. replace (y r - y r) with 0 by ring.
      apply atan2_zero_left. lra.
Qed.

Lemma calculateHeadPose_angles_witness :
  let k := {| leftEyeOuter := None; leftEyeInner := None;
              leftEyeCenter := Some (mkLandmark 0.4 0.5 None);
              rightEyeOuter := None; rightEyeInner := None;
              rightEyeCenter := Some (mkLandmark 0.6 0.5 None);
              noseTip := Some (mkLandmark 0.5 0.6 None);
              noseBridge := None; noseTop := None; leftCheek := None;
              rightCheek := None; chin := None; forehead := None;
              leftEyebrowOuter := None; leftEyebrowInner := None;
              rightEyebrowOuter := None; rightEyebrowInner := None |} in
  Pose.yaw (calculateHeadPose k) = 0 /\ Pose.roll (calculateHeadPose k) = 0.
Proof.
  intros k.
  destruct (proj2 (calculateHeadPose_angles k)
              (mkLandmark 0.4 0.5 None) (mkLandmark 0.6 0.5 None)
              (mkLandmark 0.5 0.6 None) eq_refl eq_refl eq_refl)
    as (_ & _ & _ & Hyaw & Hroll & _).
  split.
  - apply Hyaw. simpl. lra.
  - apply Hroll; simpl; lra.
Defined.

(** C8, level eyes with the right eye on the left: the roll is [PI], not 0. *)
Lemma calculateHeadPose_level_eyes_swapped :
  let k := {| leftEyeOuter := None; leftEyeInner := None;
              leftEyeCenter := Some (mkLandmark 0.6 0.5 None);
              rightEyeOuter := None; rightEyeInner := None;
              rightEyeCenter := Some (mkLandmark 0.4 0.5 None);
              noseTip := Some (mkLandmark 0.5 0.6 None);
              noseBridge := None; noseTop := None; leftCheek := None;
              rightCheek := None; chin := None; forehead := None;
              leftEyebrowOuter := None; leftEyebrowInner := None;
              rightEyebrowOuter := None; rightEyebrowInner := None |} in
  y (mkLandmark 0.6 0.5 None) = y (mkLandmark 0.4 0.5 None)
  /\ Pose.roll (calculateHeadPose k) = PI
  /\ Pose.roll (calculateHeadPose k) <> 0.
Proof.
  intros k.
  assert (E : Pose.roll (calculateHeadPose k) = PI).
  { unfold k, calculateHeadPose. simpl.
    replace (0.5 - 0.5) with 0 by lra.
    apply atan2_zero_left. lra. }
  split; [reflexivity|]. split; [exact E|].
  rewrite E. apply PI_neq0.
Qed.

(** ** Overlay placement: the 3D-model path *)

Lemma png_branch_off : forall this,
  GlassesRenderer.currentFrame this <> "png"%string
  \/ GlassesRenderer.pngImage this = None ->
  GlassesRenderer.png_branch this = None.
Proof.
  intros this [H|H]; unfold GlassesRenderer.png_branch.
  - apply String.eqb_neq in H. now rewrite H.
  - rewrite H. now destruct String.eqb.
Qed.

Lemma png_branch_on : forall this img,
  GlassesRenderer.currentFrame this = "png"%string ->
  GlassesRenderer.pngImage this = Some img ->
  GlassesRenderer.png_branch this = Some img.
Proof.
  intros this img H1 H2. unfold GlassesRenderer.png_branch.
  now rewrite H1, H2.
Qed.

(** The state the 3D-model path ends in when both eye corners are there. *)
Lemma updateGlasses_model_result :
  forall this (lms : Frame) (w h : R) model leftEye rightEye,
  GlassesRenderer.png_branch this = None ->
  GlassesRenderer.glassesModel this = Some model ->
  nth_error lms 33 = Some leftEye ->
  nth_error lms 263 = Some rightEye ->
  let lw := GlassesRenderer.normalizedToWorld leftEye w h in
  let rw := GlassesRenderer.normalizedToWorld rightEye w h in
  let finalScale :=
    Rabs (x rw - x lw) * 0.8 * GlassesRenderer.scale this * GlassesRenderer.width this in
  GlassesRenderer.updateGlasses this (Some lms) w h
  = Ok (GlassesRenderer.mk
          (GlassesRenderer.currentFrame this) (GlassesRenderer.scale this)
          (GlassesRenderer.width this) (GlassesRenderer.heightOffset this)
          (Some {| THREE.position :=
                     THREE.mkVector3
                       ((x lw + x rw) / 2)
                       ((y lw + y rw) / 2 + GlassesRenderer.heightOffset this * 0.001)
                       0;
                   THREE.rotation :=
                     THREE.mkVector3 (THREE.x (THREE.rotation model))
                                     (THREE.y (THREE.rotation model))
                                     (atan2 (y rw - y lw) (x rw - x lw));
                   THREE.scale := THREE.mkVector3 finalScale finalScale finalScale;
                   THREE.visible := true |})
          (GlassesRenderer.pngImage this) (GlassesRenderer.context2d this)).
Proof.
  intros this lms w h model leftEye rightEye Hpng Hm H33 H263 lw rw finalScale.
  unfold GlassesRenderer.updateGlasses.
  rewrite Hpng, Hm, H33, H263. reflexivity.
Qed.

(** C4. In the 3D-model path each eye corner is converted by
    [worldX = (x - 0.5) * 2 * aspect], [worldY = -(y - 0.5) * 2] with
    [aspect = viewportWidth / viewportHeight]; the model is placed at the
    midpoint of the two converted points, [heightOffset * 0.001] added to
    [y] only, and turned about the viewing axis by
    [atan2(dy, dx)] of the two converted points. *)
Theorem updateGlasses_model_position_rotation :
  forall this (lms : Frame) (w h : R) model leftEye rightEye,
  GlassesRenderer.currentFrame this <> "png"%string
  \/ GlassesRenderer.pngImage this = None ->
  GlassesRenderer.glassesModel this = Some model ->
  nth_error lms 33 = Some leftEye ->
  nth_error lms 263 = Some rightEye ->
  let aspect := w / h in
  let lw := GlassesRenderer.normalizedToWorld leftEye w h in
  let rw := GlassesRenderer.normalizedToWorld rightEye w h in
  (x lw = (x leftEye - 0.5) * 2 * aspect /\ y lw = - (y leftEye - 0.5) * 2
   /\ x rw = (x rightEye - 0.5) * 2 * aspect /\ y rw = - (y rightEye - 0.5) * 2)
  /\ exists this' model',
       GlassesRenderer.updateGlasses this (Some lms) w h = Ok this'
       /\ GlassesRenderer.glassesModel this' = Some model'
       /\ THREE.position model'
          = THREE.mkVector3
              ((x lw + x rw) / 2)
              ((y lw + y rw) / 2 + GlassesRenderer.heightOffset this * 0.001)
              0
       /\ THREE.x (THREE.position model') = (x leftEye + x rightEye - 1) * aspect
       /\ THREE.y (THREE.position model')
          = 1 - (y leftEye + y rightEye) + GlassesRenderer.heightOffset this * 0.001
       /\ THREE.z (THREE.rotation model') = atan2 (y rw - y lw) (x rw - x lw)
       /\ THREE.x (THREE.rotation model') = THREE.x (THREE.rotation model)
       /\ THREE.y (THREE.rotation model') = THREE.y (THREE.rotation model).
Proof.
  intros this lms w h model leftEye rightEye Hpath Hm H33 H263 aspect lw rw.
  split.
  - repeat split; reflexivity.
  - eexists. eexists. split.
    + apply updateGlasses_model_result; eauto using png_branch_off.
    + simpl. repeat split; try reflexivity.
      * simpl. unfold aspect. generalize (w / h). intros q. nra.
      * simpl. lra.
Qed.

Lemma updateGlasses_model_position_rotation_witness :
  exists this' model',
    GlassesRenderer.updateGlasses default_renderer
      (Some (eyes_frame 468 (mkLandmark 0.4 0.5 None) (mkLandmark 0.6 0.5 None)))
      100 100 = Ok this'
    /\ GlassesRenderer.glassesModel this' = Some model'
    /\ THREE.x (THREE.position model') = (0.4 + 0.6 - 1) * (100 / 100).
Proof.
  destruct (nth_error_eyes_frame 468 (mkLandmark 0.4 0.5 None) (mkLandmark 0.6 0.5 None))
    as [E33 E263]; [lia|].
  destruct (updateGlasses_model_position_rotation default_renderer _ 100 100 _ _ _
              (or_intror eq_refl) eq_refl E33 E263)
    as (_ & this' & model' & H1 & H2 & _ & H3 & _).
  exists this', model'. auto.
Defined.

(** ** Overlay placement: the scale of the 3D model *)

Lemma sqrt_scaled : forall a b, 0 <= a -> 0 <= b -> sqrt (a * a * b) = a * sqrt b.
Proof.
  intros a b Ha Hb.
  rewrite sqrt_mult by nra. now rewrite sqrt_square.
Qed.

Lemma planar_distance_level : forall p q,
  y p = y q -> planar_distance p q = Rabs (x q - x p).
Proof.
  intros p q H. unfold planar_distance. rewrite H.
  replace ((x q - x p) ^ 2 + (y q - y q) ^ 2) with (Rsqr (x q - x p))
    by (unfold Rsqr; ring).
  apply sqrt_Rsqr_abs.
Qed.

(** With eyes that are not level the distance exceeds the horizontal
    separation. *)
Lemma planar_distance_tilted : forall p q,
  y p <> y q -> Rabs (x q - x p) < planar_distance p q.
Proof.
  intros p q H. unfold planar_distance.
  rewrite <- sqrt_Rsqr_abs. rewrite <- !Rsqr_pow2.
  pose proof (Rle_0_sqr (x q - x p)) as Hx.
  assert (Hy : 0 < Rsqr (y q - y p)) by (apply Rsqr_pos_lt; lra).
  apply sqrt_lt_1; lra.
Qed.

(** The scale the 3D-model path sets: the horizontal separation of the two
    converted eye corners, times 0.8, the scale and the width parameter. *)
Lemma updateGlasses_model_scale :
  forall this (lms : Frame) (w h : R) model leftEye rightEye,
  GlassesRenderer.png_branch this = None ->
  GlassesRenderer.glassesModel this = Some model ->
  nth_error lms 33 = Some leftEye ->
  nth_error lms 263 = Some rightEye ->
  let lw := GlassesRenderer.normalizedToWorld leftEye w h in
  let rw := GlassesRenderer.normalizedToWorld rightEye w h in
  let finalScale :=
    Rabs (x rw - x lw) * 0.8 * GlassesRenderer.scale this * GlassesRenderer.width this in
  exists this' model',
    GlassesRenderer.updateGlasses this (Some lms) w h = Ok this'
    /\ GlassesRenderer.glassesModel this' = Some model'
    /\ THREE.scale model' = THREE.mkVector3 finalScale finalScale finalScale.
Proof.
  intros this lms w h model leftEye rightEye Hpng Hm H33 H263 lw rw finalScale.
  eexists. eexists. split.
  - apply updateGlasses_model_result; eauto.
  - split; reflexivity.
Qed.

(** With level eyes the horizontal separation is the distance, so the scale
    is the distance between the converted eye corners times 0.8, the scale
    and the width parameter. *)
Lemma updateGlasses_model_scale_level :
  forall this (lms : Frame) (w h : R) model leftEye rightEye,
  GlassesRenderer.png_branch this = None ->
  GlassesRenderer.glassesModel this = Some model ->
  nth_error lms 33 = Some leftEye ->
  nth_error lms 263 = Some rightEye ->
  y leftEye = y rightEye ->
  let lw := GlassesRenderer.normalizedToWorld leftEye w h in
  let rw := GlassesRenderer.normalizedToWorld rightEye w h in
  let finalScale :=
    planar_distance lw rw * 0.8 * GlassesRenderer.scale this
    * GlassesRenderer.width this in
  exists this' model',
    GlassesRenderer.updateGlasses this (Some lms) w h = Ok this'
    /\ GlassesRenderer.glassesModel this' = Some model'
    /\ THREE.scale model' = THREE.mkVector3 finalScale finalScale finalScale.
Proof.
  intros this lms w h model leftEye rightEye Hpng Hm H33 H263 Hy lw rw finalScale.
  destruct (updateGlasses_model_scale this lms w h model leftEye rightEye Hpng Hm H33 H263)
    as (this' & model' & E1 & E2 & E3).
  exists this', model'. repeat split; auto.
  rewrite E3. unfold finalScale.
  rewrite planar_distance_level; [reflexivity|].
  simpl. now rewrite Hy.
Qed.

(** With eyes that are not level, and positive scale and width, the scale
    set is strictly below the distance between the converted eye corners
    times 0.8, the scale and the width parameter. *)
Lemma updateGlasses_model_scale_tilted :
  forall this (lms : Frame) (w h : R) model leftEye rightEye,
  GlassesRenderer.png_branch this = None ->
  GlassesRenderer.glassesModel this = Some model ->
  nth_error lms 33 = Some leftEye ->
  nth_error lms 263 = Some rightEye ->
  y leftEye <> y rightEye ->
  0 < GlassesRenderer.scale this ->
  0 < GlassesRenderer.width this ->
  let lw := GlassesRenderer.normalizedToWorld leftEye w h in
  let rw := GlassesRenderer.normalizedToWorld rightEye w h in
  exists this' model',
    GlassesRenderer.updateGlasses this (Some lms) w h = Ok this'
    /\ GlassesRenderer.glassesModel this' = Some model'
    /\ THREE.x (THREE.scale model')
       < planar_distance lw rw * 0.8 * GlassesRenderer.scale this
         * GlassesRenderer.width this.
Proof.
  intros this lms w h model leftEye rightEye Hpng Hm H33 H263 Hy Hs Hw lw rw.
  destruct (updateGlasses_model_scale this lms w h model leftEye rightEye Hpng Hm H33 H263)
    as (this' & model' & E1 & E2 & E3).
  exists this', model'. repeat split; auto.
  rewrite E3. cbn [THREE.x]. fold lw rw.
  assert (Hlt : Rabs (x rw - x lw) < planar_distance lw rw).
  { apply planar_distance_tilted. simpl. lra. }
  apply Rmult_lt_compat_r; [exact Hw|].
  apply Rmult_lt_compat_r; [exact Hs|]. lra.
Qed.

(** The end-to-end scenario: eyes at (0.4, 0.5) and (0.6, 0.5), a 100 x 100
    viewport, default parameters.  The rotation is 0 and the scale is the
    distance between the converted eye corners times 0.8. *)
Lemma updateGlasses_level_scenario :
  let leftEye := mkLandmark 0.4 0.5 None in
  let rightEye := mkLandmark 0.6 0.5 None in
  let lw := GlassesRenderer.normalizedToWorld leftEye 100 100 in
  let rw := GlassesRenderer.normalizedToWorld rightEye 100 100 in
  exists this' model',
    GlassesRenderer.updateGlasses default_renderer
      (Some (eyes_frame 468 leftEye rightEye)) 100 100 = Ok this'
    /\ GlassesRenderer.glassesModel this' = Some model'
    /\ THREE.z (THREE.rotation model') = 0
    /\ planar_distance lw rw = 0.4
    /\ THREE.scale model'
       = THREE.mkVector3 (planar_distance lw rw * 0.8) (planar_distance lw rw * 0.8)
                         (planar_distance lw rw * 0.8)
    /\ THREE.scale model' = THREE.mkVector3 0.32 0.32 0.32.
Proof.
  intros leftEye rightEye lw rw.
  destruct (nth_error_eyes_frame 468 leftEye rightEye) as [E33 E263]; [lia|].
  assert (Hd : planar_distance lw rw = 0.4).
  { rewrite planar_distance_level by reflexivity. simpl.
    rewrite Rabs_right; lra. }
  pose proof (updateGlasses_model_result default_renderer _ 100 100 _ leftEye rightEye
                eq_refl eq_refl E33 E263) as Hres.
  eexists. eexists. split; [exact Hres|].
  split; [reflexivity|]. fold lw rw.
  {
    assert (Hx : Rabs (x rw - x lw) = 0.4).
    { simpl. rewrite Rabs_right; lra. }
    cbn [THREE.z THREE.rotation THREE.scale]. rewrite Hx, Hd.
    repeat split.
    + replace (y rw - y lw) with 0 by (simpl; lra).
      replace (x rw - x lw) with 0.4 by (simpl; lra).
      apply atan2_zero_right. lra.
    + f_equal; simpl; lra.
    + f_equal; simpl; lra.
  }
Qed.

(** C1. Tilted eyes: corners at (0.4, 0.4) and (0.6, 0.6), a 100 x 100
    viewport, scale 1 and width 1.  [updateGlasses] sets the scale 0.32,
    which is the horizontal separation 0.4 of the converted corners times
    0.8, whereas the distance between the converted corners is
    [0.4 * sqrt 2] and the stated formula gives [0.32 * sqrt 2]. *)
Theorem updateGlasses_scale_tilted_eyes :
  let leftEye := mkLandmark 0.4 0.4 (Some 0) in
  let rightEye := mkLandmark 0.6 0.6 (Some 0) in
  let lw := GlassesRenderer.normalizedToWorld leftEye 100 100 in
  let rw := GlassesRenderer.normalizedToWorld rightEye 100 100 in
  exists this' model',
    GlassesRenderer.updateGlasses default_renderer
      (Some (eyes_frame 468 leftEye rightEye)) 100 100 = Ok this'
    /\ GlassesRenderer.glassesModel this' = Some model'
    /\ THREE.scale model' = THREE.mkVector3 0.32 0.32 0.32
    /\ planar_distance lw rw = 0.4 * sqrt 2
    /\ LandmarkUtils.distance lw rw = 0.4 * sqrt 2
    /\ THREE.x (THREE.scale model')
       <> planar_distance lw rw * 0.8 * GlassesRenderer.scale default_renderer
          * GlassesRenderer.width default_renderer.
Proof.
  intros leftEye rightEye lw rw.
  destruct (nth_error_eyes_frame 468 leftEye rightEye) as [E33 E263]; [lia|].
  assert (Hd : planar_distance lw rw = 0.4 * sqrt 2).
  { unfold planar_distance. simpl.
    match goal with
    | |- sqrt ?e = _ => replace e with (0.4 * 0.4 * 2) by lra
    end.
    apply sqrt_scaled; lra. }
  assert (Hd3 : LandmarkUtils.distance lw rw = 0.4 * sqrt 2).
  { unfold LandmarkUtils.distance. simpl.
    match goal with
    | |- sqrt ?e = _ => replace e with (0.4 * 0.4 * 2) by lra
    end.
    apply sqrt_scaled; lra. }
  assert (Hx : Rabs (x rw - x lw) = 0.4).
  { simpl. rewrite Rabs_right; lra. }
  assert (Hs : 1 < sqrt 2).
  { rewrite <- sqrt_1 at 1. apply sqrt_lt_1; lra. }
  pose proof (updateGlasses_model_result default_renderer _ 100 100 _ leftEye rightEye
                eq_refl eq_refl E33 E263) as Hres.
  eexists. eexists. split; [exact Hres|].
  split; [reflexivity|]. fold lw rw.
  cbn [THREE.x THREE.scale]. rewrite Hx, Hd.
  repeat split.
  - f_equal; simpl; lra.
  - exact Hd3.
  - simpl. nra.
Qed.

(** ** Overlay placement: the flat-image path *)

(** What the flat-image path draws when both eye corners are there: the
    canvas is cleared and the image drawn once, at a width of the distance
    between the converted corners times 2.5 and the scale, at a height that
    keeps the image's proportions.  The 3D model is left alone, so no
    rotation is applied. *)
Lemma updateGlasses_png_draw :
  forall this (lms : Frame) (w h : R) img leftEye rightEye,
  GlassesRenderer.currentFrame this = "png"%string ->
  GlassesRenderer.pngImage this = Some img ->
  nth_error lms 33 = Some leftEye ->
  nth_error lms 263 = Some rightEye ->
  let lw := GlassesRenderer.normalizedToWorld leftEye w h in
  let rw := GlassesRenderer.normalizedToWorld rightEye w h in
  let glassesWidth := planar_distance lw rw * 2.5 * GlassesRenderer.scale this in
  let glassesHeight := Canvas.height img / Canvas.width img * glassesWidth in
  let centerX := (x lw + x rw) / 2 + w / 2 in
  let centerY := (y lw + y rw) / 2 + h / 2 in
  exists this',
    GlassesRenderer.updateGlasses this (Some lms) w h = Ok this'
    /\ GlassesRenderer.context2d this'
       = GlassesRenderer.context2d this
         ++ [Canvas.clearRect 0 0 w h;
             Canvas.drawImage img (centerX - glassesWidth / 2)
               (centerY - glassesHeight / 2) glassesWidth glassesHeight]
    /\ rect_centre (centerX - glassesWidth / 2) (centerY - glassesHeight / 2)
                   glassesWidth glassesHeight = (centerX, centerY)
    /\ GlassesRenderer.glassesModel this' = GlassesRenderer.glassesModel this.
Proof.
  intros this lms w h img leftEye rightEye Hf Hi H33 H263
         lw rw glassesWidth glassesHeight centerX centerY.
  eexists. split; [|split; [|split]].
  - unfold GlassesRenderer.updateGlasses.
    rewrite (png_branch_on this img Hf Hi), H33, H263. reflexivity.
  - cbn [GlassesRenderer.context2d]. rewrite <- app_assoc. reflexivity.
  - unfold rect_centre. f_equal; lra.
  - reflexivity.
Qed.

(** C5. Flat-image path, eye corners at (0.2, 0.3) and (0.4, 0.3), a
    100 x 100 canvas, scale 1, an image of 200 x 100.  The image is drawn
    1 wide and 0.5 high in a rectangle centred at (49.6, 50.4), while the
    eye midpoint in pixels is (30, 30): the converted coordinates, which
    range over the camera frustum, are used as pixels and shifted by half
    the canvas. *)
Theorem updateGlasses_png_centre_off_midpoint :
  let leftEye := mkLandmark 0.2 0.3 (Some 0) in
  let rightEye := mkLandmark 0.4 0.3 (Some 0) in
  exists this' dx dy dWidth dHeight,
    GlassesRenderer.updateGlasses png_renderer
      (Some (eyes_frame 468 leftEye rightEye)) 100 100 = Ok this'
    /\ GlassesRenderer.context2d this'
       = [Canvas.clearRect 0 0 100 100;
          Canvas.drawImage (Canvas.mkImage 200 100) dx dy dWidth dHeight]
    /\ dWidth = 1 /\ dHeight = 0.5
    /\ rect_centre dx dy dWidth dHeight = (49.6, 50.4)
    /\ pixel_midpoint leftEye rightEye 100 100 = (30, 30)
    /\ rect_centre dx dy dWidth dHeight <> pixel_midpoint leftEye rightEye 100 100.
Proof.
  intros leftEye rightEye.
  destruct (nth_error_eyes_frame 468 leftEye rightEye) as [E33 E263]; [lia|].
  destruct (updateGlasses_png_draw png_renderer _ 100 100 (Canvas.mkImage 200 100)
              leftEye rightEye eq_refl eq_refl E33 E263)
    as (this' & Hres & Hctx & Hcentre & _).
  set (lw := GlassesRenderer.normalizedToWorld leftEye 100 100) in *.
  set (rw := GlassesRenderer.normalizedToWorld rightEye 100 100) in *.
  assert (Hd : planar_distance lw rw = 0.4).
  { rewrite planar_distance_level by reflexivity. simpl.
    rewrite Rabs_right; lra. }
  rewrite Hd in Hctx, Hcentre.
  assert (Hmid : pixel_midpoint leftEye rightEye 100 100 = (30, 30)).
  { unfold pixel_midpoint. simpl. f_equal; lra. }
  exists this'. do 4 eexists.
  split; [exact Hres|]. split; [exact Hctx|].
  split; [simpl; lra|]. split; [simpl; lra|].
  rewrite Hcentre, Hmid.
  split; [simpl; f_equal; lra|]. split; [reflexivity|].
  simpl. intros H. injection H as H1 H2. lra.
Qed.

(** ** Missing eye corners and cycles without a face *)

(** With an eye corner missing the 3D-model path changes nothing. *)
Lemma updateGlasses_model_missing_eye :
  forall this (lms : Frame) (w h : R),
  GlassesRenderer.png_branch this = None ->
  nth_error lms 33 = None \/ nth_error lms 263 = None ->
  GlassesRenderer.updateGlasses this (Some lms) w h = Ok this.
Proof.
  intros this lms w h Hpng Hmiss. unfold GlassesRenderer.updateGlasses.
  rewrite Hpng. destruct (GlassesRenderer.glassesModel this); [|reflexivity].
  destruct Hmiss as [H|H]; rewrite H; [reflexivity|].
  destruct (nth_error lms 33); reflexivity.
Qed.

(** With an eye corner missing the flat-image path clears the canvas and
    draws nothing. *)
Lemma updateGlasses_png_missing_eye :
  forall this (lms : Frame) (w h : R) img,
  GlassesRenderer.png_branch this = Some img ->
  nth_error lms 33 = None \/ nth_error lms 263 = None ->
  GlassesRenderer.updateGlasses this (Some lms) w h
  = Ok (GlassesRenderer.mk
          (GlassesRenderer.currentFrame this) (GlassesRenderer.scale this)
          (GlassesRenderer.width this) (GlassesRenderer.heightOffset this)
          (GlassesRenderer.glassesModel this) (GlassesRenderer.pngImage this)
          (GlassesRenderer.context2d this ++ [Canvas.clearRect 0 0 w h])).
Proof.
  intros this lms w h img Hpng Hmiss. unfold GlassesRenderer.updateGlasses.
  rewrite Hpng. destruct Hmiss as [H|H]; rewrite H; [reflexivity|].
  destruct (nth_error lms 33); reflexivity.
Qed.

(** The callback never throws: it hands [updateGlasses] an array. *)
Lemma updateGlasses_array_ok : forall this (lms : Frame) (w h : R),
  exists this', GlassesRenderer.updateGlasses this (Some lms) w h = Ok this'.
Proof.
  intros this lms w h. unfold GlassesRenderer.updateGlasses.
  destruct (GlassesRenderer.png_branch this).
  - destruct (nth_error lms 33), (nth_error lms 263); eexists; reflexivity.
  - destruct (GlassesRenderer.glassesModel this); [|eexists; reflexivity].
    destruct (nth_error lms 33), (nth_error lms 263); eexists; reflexivity.
Qed.

Lemma onFaceDetected_ok : forall app results,
  exists app', VirtualTryOnApp.onFaceDetected app results = Ok app'.
Proof.
  intros app results. unfold VirtualTryOnApp.onFaceDetected.
  destruct results as [res|]; [|eexists; reflexivity].
  destruct (VirtualTryOnApp.glassesRenderer app) as [renderer|];
    [|eexists; reflexivity].
  match goal with
  | |- context [GlassesRenderer.updateGlasses ?r (Some ?l) ?w ?h] =>
      destruct (updateGlasses_array_ok r l w h) as [r' ->]
  end.
  eexists; reflexivity.
Qed.

Lemma run_cycles_no_face : forall app cycles,
  Forall no_face cycles -> VirtualTryOnApp.run_cycles app cycles = Ok app.
Proof.
  intros app cycles H. induction H as [|c rest Hc _ IH]; simpl.
  - reflexivity.
  - destruct Hc as [-> | ->]; simpl; exact IH.
Qed.

(** C6. When landmark 33 or 263 is missing [updateGlasses] returns normally
    and leaves the 3D model (position, rotation, scale, visibility) as it
    was: in the 3D-model path nothing at all changes, in the flat-image
    path the canvas is cleared and no image drawn.  A [null] result leaves
    the application untouched, and so does any run of cycles without a
    face; no call of the detection callback throws. *)
Theorem updateGlasses_missing_eye_keeps_placement :
  forall this (lms : Frame) (w h : R),
  nth_error lms 33 = None \/ nth_error lms 263 = None ->
  (exists this',
     GlassesRenderer.updateGlasses this (Some lms) w h = Ok this'
     /\ GlassesRenderer.glassesModel this' = GlassesRenderer.glassesModel this
     /\ (this' = this
         \/ GlassesRenderer.context2d this'
            = GlassesRenderer.context2d this ++ [Canvas.clearRect 0 0 w h]
            /\ shows_nothing (GlassesRenderer.context2d this')))
  /\ (forall app, VirtualTryOnApp.onFaceDetected app None = Ok app)
  /\ (forall app cycles,
        Forall no_face cycles -> VirtualTryOnApp.run_cycles app cycles = Ok app)
  /\ (forall app results,
        exists app', VirtualTryOnApp.onFaceDetected app results = Ok app').
Proof.
  intros this lms w h Hmiss. split; [|split; [|split]].
  - destruct (GlassesRenderer.png_branch this) as [img|] eqn:Hpng.
    + eexists. split; [exact (updateGlasses_png_missing_eye this lms w h img Hpng Hmiss)|].
      split; [reflexivity|]. right. split; [reflexivity|].
      cbn [GlassesRenderer.context2d]. unfold shows_nothing. eauto 6.
    + exists this. split; [exact (updateGlasses_model_missing_eye this lms w h Hpng Hmiss)|].
      auto.
  - reflexivity.
  - apply run_cycles_no_face.
  - apply onFaceDetected_ok.
Qed.

Lemma updateGlasses_missing_eye_keeps_placement_witness :
  exists this',
    GlassesRenderer.updateGlasses default_renderer
      (Some [mkLandmark 0.4 0.5 None; mkLandmark 0.6 0.5 None]) 100 100 = Ok this'
    /\ GlassesRenderer.glassesModel this'
       = GlassesRenderer.glassesModel default_renderer.
Proof.
  destruct (updateGlasses_missing_eye_keeps_placement default_renderer
              [mkLandmark 0.4 0.5 None; mkLandmark 0.6 0.5 None] 100 100
              (or_introl eq_refl))
    as ((this' & Hres & Hmodel & _) & _).
  exists this'. split; assumption.
Defined.

(** * Further properties of the code *)

(** ** Smoothing as a pointwise map *)

Lemma skipn_nth_error_cons : forall (l : Frame) i p,
  nth_error l i = Some p -> skipn i l = p :: skipn (S i) l.
Proof.
  induction l as [|h t IH]; intros i p H.
  - destruct i; discriminate.
  - destruct i as [|i]; simpl in H.
    + now injection H as ->.
    + simpl. rewrite (IH i p H). reflexivity.
Qed.

Lemma smooth_loop_pointwise : forall (P : Frame) a rest i acc,
  smooth_loop i rest P a acc
  = acc ++ map (fun pc => blend (fst pc) (snd pc) a) (combine (skipn i P) rest)
        ++ skipn (length P - i) rest.
Proof.
  intros P a. induction rest as [|c rest IH]; intros i acc.
  - simpl. rewrite combine_nil, skipn_nil. simpl. now rewrite app_nil_r.
  - simpl. rewrite IH. rewrite <- app_assoc.
    destruct (nth_error P i) as [p|] eqn:E.
    + assert (i < length P)%nat by (apply nth_error_Some; congruence).
      rewrite (skipn_nth_error_cons P i p E).
      replace (length P - i)%nat with (S (length P - S i)) by lia.
      reflexivity.
    + apply nth_error_None in E.
      rewrite (skipn_all2 P) by lia. rewrite (skipn_all2 P) by lia.
      replace (length P - i)%nat with 0%nat by lia.
      replace (length P - S i)%nat with 0%nat by lia.
      reflexivity.
Qed.

(** X1. Whatever the two lengths, the smoothed frame is the blend of the
    pairs of landmarks that both frames have, in order, followed by the
    current landmarks past the end of the previous frame; previous
    landmarks past the end of the current frame play no part. *)
Theorem smoothLandmarks_pointwise :
  forall (F P : Frame) (a : option R),
  smoothLandmarks F (Some P) a
  = map (fun pc => blend (fst pc) (snd pc) (factor_of a)) (combine P F)
    ++ skipn (length P) F.
Proof.
  intros F P a. unfold smoothLandmarks.
  change (match a with Some v => v | None => 0.7 end) with (factor_of a).
  rewrite smooth_loop_pointwise. simpl. now rewrite Nat.sub_0_r.
Qed.

(** ** Confidence: range and dependence *)

Lemma checked_ok_nil : forall i, checked_ok [] i = false.
Proof. intros i. unfold checked_ok. now destruct i. Qed.

(** The confidence as a count, the empty frame included. *)
Lemma calculateConfidence_filter : forall lms : Frame,
  calculateConfidence (Some lms)
  = INR (length (filter (checked_ok lms) keyIndices)) / 4.
Proof.
  intros lms. unfold calculateConfidence.
  destruct lms as [|l rest].
  - unfold keyIndices. cbn [filter length Nat.eqb].
    rewrite !checked_ok_nil. simpl. lra.
  - change (length (l :: rest) =? 0)%nat with false. cbv iota.
    rewrite count_loop_filter, Nat.add_0_l.
    simpl (length keyIndices). simpl (INR 4). f_equal. lra.
Qed.

Lemma quarter_INR : forall k, (k <= 4)%nat -> quarter (INR k / 4).
Proof.
  intros k Hk. unfold quarter.
  destruct k as [|[|[|[|[|k]]]]]; simpl; try lia.
  - left. lra.
  - right. left. lra.
  - right. right. left. lra.
  - right. right. right. left. lra.
  - right. right. right. right. lra.
Qed.

Lemma calculateConfidence_is_quarter : forall landmarks : option Frame,
  quarter (calculateConfidence landmarks).
Proof.
  intros [lms|].
  - rewrite calculateConfidence_filter. apply quarter_INR.
    apply (filter_length_le (checked_ok lms) keyIndices).
  - left. reflexivity.
Qed.

(** X5. The confidence is always one of 0, 0.25, 0.5, 0.75 and 1, so it
    lies in [[0,1]]; for a missing or empty frame it is 0. *)
Theorem calculateConfidence_quarters :
  forall landmarks : option Frame,
  quarter (calculateConfidence landmarks)
  /\ 0 <= calculateConfidence landmarks <= 1
  /\ (landmarks = None \/ landmarks = Some [] -> calculateConfidence landmarks = 0).
Proof.
  intros landmarks.
  pose proof (calculateConfidence_is_quarter landmarks) as Hq.
  split; [exact Hq|]. split.
  - unfold quarter in Hq. lra.
  - intros [-> | ->]; reflexivity.
Qed.

(** X6. The confidence depends on the landmarks 33, 263, 1 and 9 alone: two
    frames that agree at these four indices have the same confidence. *)
Theorem calculateConfidence_four_indices :
  forall lms lms' : Frame,
  (forall i, In i [33; 263; 1; 9]%nat -> nth_error lms i = nth_error lms' i) ->
  calculateConfidence (Some lms) = calculateConfidence (Some lms').
Proof.
  intros lms lms' H. rewrite !calculateConfidence_filter.
  f_equal. f_equal. f_equal. apply filter_ext_in.
  intros i Hi. unfold checked_ok. now rewrite (H i Hi).
Qed.

Lemma calculateConfidence_four_indices_witness :
  calculateConfidence (Some (eyes_frame 300 (mkLandmark 0.4 0.5 None)
                                        (mkLandmark 0.6 0.5 None)))
  = calculateConfidence (Some (eyes_frame 468 (mkLandmark 0.4 0.5 None)
                                          (mkLandmark 0.6 0.5 None))).
Proof.
  apply calculateConfidence_four_indices.
  intros i [<-|[<-|[<-|[<-|[]]]]]; unfold eyes_frame;
    rewrite !nth_error_frame_of by lia; reflexivity.
Defined.

(** ** Bounding rectangle: what it bounds *)

(** X7. For a frame with at least one landmark, the corner [(x, y)] of the
    rectangle is at or below every landmark on both axes, at most (1, 1) and
    not beyond the centre [(centerX, centerY)], and the width and the height
    are not negative. *)
Theorem calculateFaceRect_lower_corner :
  forall lms : Frame,
  lms <> [] ->
  exists r,
    calculateFaceRect (Some lms) = Some r
    /\ (forall l, In l lms -> Rect.x r <= x l /\ Rect.y r <= y l)
    /\ Rect.x r <= 1 /\ Rect.y r <= 1
    /\ Rect.x r <= Rect.centerX r /\ Rect.y r <= Rect.centerY r
    /\ 0 <= Rect.width r /\ 0 <= Rect.height r.
Proof.
  intros lms Hne.
  destruct (calculateFaceRect_nonempty lms Hne)
    as (a & b & c & d & E & (Ha & HA & _) & (Hb & HB & _)
        & (_ & HC & _) & (_ & HD & _)).
  rewrite Forall_forall in HA, HB, HC, HD.
  assert (Hin : forall l, In l lms -> a <= x l <= c /\ b <= y l <= d).
  { intros l Hl. repeat split.
    - apply HA. now apply in_map.
    - apply HC. now apply in_map.
    - apply HB. now apply in_map.
    - apply HD. now apply in_map. }
  eexists. split; [exact E|]. simpl.
  split.
  - intros l Hl. specialize (Hin l Hl). lra.
  - destruct lms as [|l0 rest]; [congruence|].
    specialize (Hin l0 (or_introl eq_refl)). repeat split; lra.
Qed.

Lemma calculateFaceRect_lower_corner_witness :
  exists r,
    calculateFaceRect (Some [mkLandmark 2 (-1) None; mkLandmark 0.5 0.5 None]) = Some r
    /\ Rect.x r <= 1 /\ 0 <= Rect.width r.
Proof.
  destruct (calculateFaceRect_lower_corner
              [mkLandmark 2 (-1) None; mkLandmark 0.5 0.5 None])
    as (r & E & _ & Hx & _ & _ & _ & Hw & _).
  - discriminate.
  - exists r. auto.
Defined.

Lemma Rmin_swap : forall m u v, Rmin (Rmin m u) v = Rmin (Rmin m v) u.
Proof.
  intros m u v.
  now rewrite <- !Rmin_assoc, (Rmin_comm u v).
Qed.

Lemma Rmax_swap : forall m u v, Rmax (Rmax m u) v = Rmax (Rmax m v) u.
Proof.
  intros m u v.
  now rewrite <- !Rmax_assoc, (Rmax_comm u v).
Qed.

Lemma rect_loop_perm : forall lms lms' : list Landmark,
  Permutation lms lms' ->
  forall minX minY maxX maxY,
    rect_loop lms minX minY maxX maxY = rect_loop lms' minX minY maxX maxY.
Proof.
  intros lms lms' HP. induction HP; intros minX minY maxX maxY; simpl.
  - reflexivity.
  - apply IHHP.
  - rewrite (Rmin_swap minX), (Rmin_swap minY), (Rmax_swap maxX), (Rmax_swap maxY).
    reflexivity.
  - now rewrite IHHP1.
Qed.

(** X8. The rectangle does not depend on the order of the landmarks. *)
Theorem calculateFaceRect_order_free :
  forall lms lms' : Frame,
  Permutation lms lms' ->
  calculateFaceRect (Some lms) = calculateFaceRect (Some lms').
Proof.
  intros lms lms' HP. unfold calculateFaceRect.
  rewrite (Permutation_length HP).
  now rewrite (rect_loop_perm lms lms' HP).
Qed.

Lemma calculateFaceRect_order_free_witness :
  calculateFaceRect (Some [mkLandmark 0.2 0.9 None; mkLandmark 0.7 0.1 None])
  = calculateFaceRect (Some [mkLandmark 0.7 0.1 None; mkLandmark 0.2 0.9 None]).
Proof.
  apply calculateFaceRect_order_free. apply perm_swap.
Defined.

(** ** Head pose: ranges, direction, shifts *)

Lemma atan2_tenth_range : forall v, - (PI / 2) < atan2 v 0.1 < PI / 2.
Proof.
  intros v. rewrite atan2_right by lra.
  pose proof (atan_bound (v / 0.1)). lra.
Qed.

Lemma atan2_tenth_sign : forall v,
  (0 < v -> 0 < atan2 v 0.1) /\ (v < 0 -> atan2 v 0.1 < 0).
Proof.
  intros v. rewrite atan2_right by lra. split; intros Hv.
  - rewrite <- atan_0. apply atan_increasing.
    apply Rdiv_lt_0_compat; lra.
  - rewrite <- atan_0. apply atan_increasing.
    assert (0 < (- v) / 0.1) by (apply Rdiv_lt_0_compat; lra).
    unfold Rdiv in *. lra.
Qed.

(** X9. Whatever the key landmarks, the roll lies in [(-PI, PI]] and the
    yaw and the pitch lie strictly between [-PI/2] and [PI/2]. *)
Theorem calculateHeadPose_ranges :
  forall k : KeyLandmarks,
  let pose := calculateHeadPose k in
  - PI < Pose.roll pose <= PI
  /\ - (PI / 2) < Pose.yaw pose < PI / 2
  /\ - (PI / 2) < Pose.pitch pose < PI / 2.
Proof.
  intros k pose. unfold pose, calculateHeadPose.
  pose proof PI_RGT_0 as HPI.
  destruct (leftEyeCenter k) as [l|], (rightEyeCenter k) as [r|], (noseTip k) as [n|];
    simpl; try lra.
  split; [apply atan2_range|]. split; apply atan2_tenth_range.
Qed.

(** X10. With the three landmarks present, the yaw is positive exactly when
    the nose tip is to the right of the centre of the eyes and negative
    when it is to the left; the pitch is positive when the nose tip is
    below that centre in the image and negative when it is above. *)
Theorem calculateHeadPose_direction :
  forall (k : KeyLandmarks) (leftEye rightEye nose : Landmark),
  leftEyeCenter k = Some leftEye ->
  rightEyeCenter k = Some rightEye ->
  noseTip k = Some nose ->
  let pose := calculateHeadPose k in
  let eyeCenterX := (x leftEye + x rightEye) / 2 in
  let eyeCenterY := (y leftEye + y rightEye) / 2 in
  (eyeCenterX < x nose -> 0 < Pose.yaw pose)
  /\ (x nose < eyeCenterX -> Pose.yaw pose < 0)
  /\ (eyeCenterY < y nose -> 0 < Pose.pitch pose)
  /\ (y nose < eyeCenterY -> Pose.pitch pose < 0).
Proof.
  intros k l r n Hl Hr Hn pose cx cy.
  unfold pose, calculateHeadPose. rewrite Hl, Hr, Hn. simpl.
  fold cx cy.
  destruct (atan2_tenth_sign (x n - cx)) as [Hx1 Hx2].
  destruct (atan2_tenth_sign (y n - cy)) as [Hy1 Hy2].
  repeat split; intros H; [apply Hx1|apply Hx2|apply Hy1|apply Hy2]; lra.
Qed.

Lemma calculateHeadPose_direction_witness :
  let k := {| leftEyeOuter := None; leftEyeInner := None;
              leftEyeCenter := Some (mkLandmark 0.4 0.5 None);
              rightEyeOuter := None; rightEyeInner := None;
              rightEyeCenter := Some (mkLandmark 0.6 0.5 None);
              noseTip := Some (mkLandmark 0.55 0.6 None);
              noseBridge := None; noseTop := None; leftCheek := None;
              rightCheek := None; chin := None; forehead := None;
              leftEyebrowOuter := None; leftEyebrowInner := None;
              rightEyebrowOuter := None; rightEyebrowInner := None |} in
  0 < Pose.yaw (calculateHeadPose k) /\ 0 < Pose.pitch (calculateHeadPose k).
Proof.
  intros k.
  destruct (calculateHeadPose_direction k (mkLandmark 0.4 0.5 None)
              (mkLandmark 0.6 0.5 None) (mkLandmark 0.55 0.6 None)
              eq_refl eq_refl eq_refl)
    as (Hyaw & _ & Hpitch & _).
  split.
  - apply Hyaw. simpl. lra.
  - apply Hpitch. simpl. lra.
Defined.

(** ** processResults *)

Lemma processResults_face : forall (face : Frame) (rest : list Frame),
  processResults (Some (face :: rest))
  = Some {| landmarks := face;
            keyLandmarks :=
              {| leftEyeOuter := nth_error face 33; leftEyeInner := nth_error face 133;
                 leftEyeCenter := nth_error face 159; rightEyeOuter := nth_error face 263;
                 rightEyeInner := nth_error face 362; rightEyeCenter := nth_error face 386;
                 noseTip := nth_error face 1; noseBridge := nth_error face 9;
                 noseTop := nth_error face 10; leftCheek := nth_error face 234;
                 rightCheek := nth_error face 454; chin := nth_error face 175;
                 forehead := nth_error face 9;
                 leftEyebrowOuter := nth_error face 70;
                 leftEyebrowInner := nth_error face 63;
                 rightEyebrowOuter := nth_error face 300;
                 rightEyebrowInner := nth_error face 293 |};
            confidence := calculateConfidence (Some face);
            faceRect := calculateFaceRect (Some face);
            headPose :=
              calculateHeadPose
                {| leftEyeOuter := nth_error face 33; leftEyeInner := nth_error face 133;
                   leftEyeCenter := nth_error face 159; rightEyeOuter := nth_error face 263;
                   rightEyeInner := nth_error face 362; rightEyeCenter := nth_error face 386;
                   noseTip := nth_error face 1; noseBridge := nth_error face 9;
                   noseTop := nth_error face 10; leftCheek := nth_error face 234;
                   rightCheek := nth_error face 454; chin := nth_error face 175;
                   forehead := nth_error face 9;
                   leftEyebrowOuter := nth_error face 70;
                   leftEyebrowInner := nth_error face 63;
                   rightEyebrowOuter := nth_error face 300;
                   rightEyebrowInner := nth_error face 293 |} |}.
Proof. reflexivity. Qed.

(** X11. [processResults] returns [null] exactly when the list of faces is
    missing or empty.  Otherwise the result carries the landmarks of the
    first face, later faces are ignored, the confidence lies in [[0,1]],
    and the face rectangle is [null] exactly when the first face has no
    landmark. *)
Theorem processResults_first_face :
  forall multiFaceLandmarks : option (list Frame),
  (processResults multiFaceLandmarks = None
   <-> multiFaceLandmarks = None \/ multiFaceLandmarks = Some [])
  /\ (forall face rest,
        multiFaceLandmarks = Some (face :: rest) ->
        exists res,
          processResults multiFaceLandmarks = Some res
          /\ processResults (Some [face]) = Some res
          /\ landmarks res = face
          /\ 0 <= confidence res <= 1
          /\ (faceRect res = None <-> face = [])).
Proof.
  intros mfl. split.
  - destruct mfl as [[|face rest]|]; simpl; split; auto; try discriminate.
    intros [H|H]; discriminate.
  - intros face rest ->. eexists. split; [apply processResults_face|].
    split; [apply processResults_face|]. cbn [landmarks confidence faceRect].
    split; [reflexivity|]. split.
    + pose proof (calculateConfidence_is_quarter (Some face)) as Hq.
      unfold quarter in Hq. lra.
    + destruct face as [|l t]; [split; reflexivity|].
      destruct (calculateFaceRect_nonempty (l :: t)) as (a & b & c & d & E & _);
        [discriminate|].
      rewrite E. split; discriminate.
Qed.

Lemma processResults_first_face_witness :
  exists res,
    processResults (Some [[mkLandmark 0.5 0.5 None]; []]) = Some res
    /\ landmarks res = [mkLandmark 0.5 0.5 None].
Proof.
  destruct (proj2 (processResults_first_face (Some [[mkLandmark 0.5 0.5 None]; []]))
              [mkLandmark 0.5 0.5 None] [[]] eq_refl)
    as (res & E & _ & Hl & _).
  exists res. split; assumption.
Defined.

(** X12. A first face with fewer than 387 landmarks has no right eye
    centre (index 386), so its head pose is the fallback
    [{pitch: 0, yaw: 0, roll: 0}]. *)
Theorem processResults_short_face_pose :
  forall (face : Frame) (rest : list Frame),
  (length face < 387)%nat ->
  exists res,
    processResults (Some (face :: rest)) = Some res
    /\ headPose res = {| Pose.pitch := 0; Pose.yaw := 0; Pose.roll := 0 |}.
Proof.
  intros face rest Hlen. eexists. split; [apply processResults_face|].
  cbn [headPose]. unfold calculateHeadPose. cbn [leftEyeCenter rightEyeCenter noseTip].
  replace (nth_error face 386) with (@None Landmark)
    by (symmetry; apply nth_error_None; lia).
  destruct (nth_error face 159); reflexivity.
Qed.

Lemma processResults_short_face_pose_witness :
  exists res,
    processResults (Some [eyes_frame 300 (mkLandmark 0.4 0.5 None)
                                     (mkLandmark 0.6 0.5 None)]) = Some res
    /\ headPose res = {| Pose.pitch := 0; Pose.yaw := 0; Pose.roll := 0 |}.
Proof.
  apply (processResults_short_face_pose
           (eyes_frame 300 (mkLandmark 0.4 0.5 None) (mkLandmark 0.6 0.5 None)) []).
  unfold eyes_frame, frame_of. rewrite length_map, length_seq. lia.
Defined.

(** ** LandmarkUtils: distance, midpoint, angle, pixels *)

Lemma sum_squares_nonneg : forall u v w, 0 <= u * u + v * v + w * w.
Proof. intros u v w. nra. Qed.

Lemma sum_squares_zero : forall u v w,
  u * u + v * v + w * w = 0 -> u = 0 /\ v = 0 /\ w = 0.
Proof.
  intros u v w H.
  pose proof (Rle_0_sqr u) as Hu. pose proof (Rle_0_sqr v) as Hv.
  pose proof (Rle_0_sqr w) as Hw. unfold Rsqr in *.
  repeat split; apply Rsqr_0_uniq; unfold Rsqr; lra.
Qed.

(** X14. [distance] is symmetric and never negative, and it is 0 exactly
    when the two points have the same [x], [y] and [z] (a missing [z] read
    as 0). *)
Theorem distance_symmetric_definite :
  forall p q : Landmark,
  distance p q = distance q p
  /\ 0 <= distance p q
  /\ (distance p q = 0
      <-> x p = x q /\ y p = y q /\ or_zero (z p) = or_zero (z q)).
Proof.
  intros p q. unfold distance. cbv zeta. split; [|split].
  - f_equal. ring.
  - apply sqrt_pos.
  - split.
    + intros H. apply sqrt_eq_0 in H; [|apply sum_squares_nonneg].
      apply sum_squares_zero in H. lra.
    + intros (Hx & Hy & Hz). rewrite Hx, Hy, Hz.
      replace ((x q - x q) * (x q - x q) + (y q - y q) * (y q - y q)
               + (or_zero (z q) - or_zero (z q)) * (or_zero (z q) - or_zero (z q)))
        with 0 by ring.
      apply sqrt_0.
Qed.

(** X16. [midpoint] does not depend on the order of its two points, each of
    its coordinates lies between those of the two points, and the midpoint
    of a point with itself has the [x] and [y] of that point. *)
Theorem midpoint_between :
  forall p q : Landmark,
  midpoint p q = midpoint q p
  /\ Rmin (x p) (x q) <= x (midpoint p q) <= Rmax (x p) (x q)
  /\ Rmin (y p) (y q) <= y (midpoint p q) <= Rmax (y p) (y q)
  /\ Rmin (or_zero (z p)) (or_zero (z q)) <= or_zero (z (midpoint p q))
     <= Rmax (or_zero (z p)) (or_zero (z q))
  /\ x (midpoint p p) = x p /\ y (midpoint p p) = y p.
Proof.
  intros p q. unfold midpoint. cbn [x y z or_zero].
  assert (Hmid : forall u v, Rmin u v <= (u + v) / 2 <= Rmax u v).
  { intros u v. unfold Rmin, Rmax. destruct (Rle_dec u v); lra. }
  split; [f_equal; [lra|lra|f_equal; lra]|].
  repeat split; try apply Hmid; lra.
Qed.

Lemma atan2_sense : forall dy dx,
  (0 < dy -> 0 < atan2 dy dx) /\ (dy < 0 -> atan2 dy dx < 0).
Proof.
  intros dy dx. pose proof PI_RGT_0 as HPI.
  pose proof (atan_bound (dy / dx)) as Hb.
  unfold atan2.
  destruct (Rlt_dec 0 dx) as [Hp|Hp]; [|destruct (Rlt_dec dx 0) as [Hn|Hn]].
  - assert (Hinv : 0 < / dx) by now apply Rinv_0_lt_compat.
    split; intros Hy; rewrite <- atan_0; apply atan_increasing; unfold Rdiv; nra.
  - destruct (Rle_dec 0 dy); split; intros Hy; lra.
  - destruct (Rlt_dec 0 dy); [split; intros; lra|].
    destruct (Rlt_dec dy 0); split; intros; lra.
Qed.

(** X17. [angle(p, q)] lies in [(-PI, PI]]; it is positive when [q] has the
    larger [y] and negative when [q] has the smaller one; for equal [y] it
    is 0 when [q] is not to the left of [p] and [PI] when it is. *)
Theorem angle_sense :
  forall p q : Landmark,
  - PI < angle p q <= PI
  /\ (y p < y q -> 0 < angle p q)
  /\ (y q < y p -> angle p q < 0)
  /\ (y p = y q -> x p <= x q -> angle p q = 0)
  /\ (y p = y q -> x q < x p -> angle p q = PI).
Proof.
  intros p q. unfold angle.
  destruct (atan2_sense (y q - y p) (x q - x p)) as [Hpos Hneg].
  split; [apply atan2_range|]. split; [intros; apply Hpos; lra|].
  split; [intros; apply Hneg; lra|]. split.
  - intros -> Hx. replace (y q - y q) with 0 by ring.
    apply atan2_zero_right. lra.
  - intros -> Hx. replace (y q - y q) with 0 by ring.
    apply atan2_zero_left. lra.
Qed.

Lemma angle_sense_witness :
  0 < angle (mkLandmark 0.4 0.5 None) (mkLandmark 0.6 0.7 None)
  /\ angle (mkLandmark 0.6 0.5 None) (mkLandmark 0.4 0.5 None) = PI.
Proof.
  split.
  - apply (angle_sense (mkLandmark 0.4 0.5 None) (mkLandmark 0.6 0.7 None)).
    simpl. lra.
  - apply (angle_sense (mkLandmark 0.6 0.5 None) (mkLandmark 0.4 0.5 None)).
    + reflexivity.
    + simpl. lra.
Defined.

(** X18. [normalizeCoordinate] takes a landmark of the unit square to a
    pixel of the canvas: [0 <= x <= canvasWidth] and
    [0 <= y <= canvasHeight]. *)
Theorem normalizeCoordinate_in_canvas :
  forall (p : Landmark) (canvasWidth canvasHeight : R),
  0 <= canvasWidth -> 0 <= canvasHeight ->
  0 <= x p <= 1 -> 0 <= y p <= 1 ->
  0 <= x (normalizeCoordinate p canvasWidth canvasHeight) <= canvasWidth
  /\ 0 <= y (normalizeCoordinate p canvasWidth canvasHeight) <= canvasHeight.
Proof.
  intros p W H HW HH Hx Hy. simpl. repeat split; nra.
Qed.

Lemma normalizeCoordinate_in_canvas_witness :
  0 <= x (normalizeCoordinate (mkLandmark 0.25 0.5 None) 640 480) <= 640.
Proof.
  apply (normalizeCoordinate_in_canvas (mkLandmark 0.25 0.5 None) 640 480);
    simpl; lra.
Defined.

(** ** Renderer: the world mapping and the camera *)

Lemma aspect_nonneg : forall w h, 0 <= w -> 0 < h -> 0 <= w / h.
Proof.
  intros w h Hw Hh. unfold Rdiv. apply Rmult_le_pos; [exact Hw|].
  left. now apply Rinv_0_lt_compat.
Qed.

(** X19. After [resize(width, height)] on an initialised renderer, with a
    positive height, [normalizedToWorld] takes every landmark of the unit
    square into the bounds of the camera: the corner (0, 0) goes to
    (left, top), the corner (1, 1) to (right, bottom) and the centre
    (0.5, 0.5) to the origin. *)
Theorem normalizedToWorld_in_camera :
  forall (view : GlassesRenderer.Viewport) (w h : R) cam size (l : Landmark),
  GlassesRenderer.view_camera view = Some cam ->
  GlassesRenderer.view_renderer view = Some size ->
  0 <= w -> 0 < h ->
  0 <= x l <= 1 -> 0 <= y l <= 1 ->
  exists cam',
    GlassesRenderer.view_camera (GlassesRenderer.resize view w h) = Some cam'
    /\ GlassesRenderer.left cam' <= x (GlassesRenderer.normalizedToWorld l w h)
       <= GlassesRenderer.right cam'
    /\ GlassesRenderer.bottom cam' <= y (GlassesRenderer.normalizedToWorld l w h)
       <= GlassesRenderer.top cam'
    /\ (x l = 0 -> x (GlassesRenderer.normalizedToWorld l w h) = GlassesRenderer.left cam')
    /\ (y l = 0 -> y (GlassesRenderer.normalizedToWorld l w h) = GlassesRenderer.top cam')
    /\ (x l = 1 -> x (GlassesRenderer.normalizedToWorld l w h) = GlassesRenderer.right cam')
    /\ (y l = 1 -> y (GlassesRenderer.normalizedToWorld l w h) = GlassesRenderer.bottom cam')
    /\ (x l = 0.5 -> x (GlassesRenderer.normalizedToWorld l w h) = 0)
    /\ (y l = 0.5 -> y (GlassesRenderer.normalizedToWorld l w h) = 0).
Proof.
  intros view w h cam size l Hc Hr Hw Hh Hx Hy.
  pose proof (aspect_nonneg w h Hw Hh) as Ha.
  unfold GlassesRenderer.resize. rewrite Hc, Hr.
  eexists. split; [reflexivity|].
  cbn [GlassesRenderer.left GlassesRenderer.right GlassesRenderer.top
       GlassesRenderer.bottom].
  unfold GlassesRenderer.normalizedToWorld. cbn [x y].
  generalize dependent (w / h). intros q Hq.
  repeat split; try nra; intros ->; nra.
Qed.

Lemma normalizedToWorld_in_camera_witness :
  exists cam',
    GlassesRenderer.view_camera
      (GlassesRenderer.resize
         (GlassesRenderer.mkViewport 0 0 (Some (GlassesRenderer.mkCamera 0 0 0 0))
                                     (Some (0, 0)))
         640 480) = Some cam'
    /\ GlassesRenderer.left cam'
       <= x (GlassesRenderer.normalizedToWorld (mkLandmark 0.25 0.75 None) 640 480)
       <= GlassesRenderer.right cam'.
Proof.
  destruct (normalizedToWorld_in_camera
              (GlassesRenderer.mkViewport 0 0 (Some (GlassesRenderer.mkCamera 0 0 0 0))
                                          (Some (0, 0)))
              640 480 (GlassesRenderer.mkCamera 0 0 0 0) (0, 0)
              (mkLandmark 0.25 0.75 None) eq_refl eq_refl)
    as (cam' & E & Hx & _); try (simpl; lra).
  exists cam'. split; assumption.
Defined.

(** ** Renderer: what [updateGlasses] leaves alone *)

(** X20. [updateGlasses] never changes the frame type, the scale, width and
    height-offset parameters or the image.  The 3D-model branch makes no
    call on the 2D context, and the flat-image branch leaves the 3D model
    as it was. *)
Theorem updateGlasses_keeps_settings :
  forall this (landmarks : option Frame) (w h : R) this',
  GlassesRenderer.updateGlasses this landmarks w h = Ok this' ->
  same_settings this this'
  /\ (GlassesRenderer.png_branch this = None ->
      GlassesRenderer.context2d this' = GlassesRenderer.context2d this)
  /\ (GlassesRenderer.png_branch this <> None ->
      GlassesRenderer.glassesModel this' = GlassesRenderer.glassesModel this).
Proof.
  intros this landmarks w h this' H.
  unfold GlassesRenderer.updateGlasses in H. unfold same_settings.
  destruct (GlassesRenderer.png_branch this) as [img|] eqn:Hpng.
  - destruct landmarks as [lms|]; [|discriminate].
    destruct (nth_error lms 33), (nth_error lms 263);
      injection H as <-; cbn; repeat split; auto; congruence.
  - destruct (GlassesRenderer.glassesModel this) as [model|], landmarks as [lms|];
      try (injection H as <-; repeat split; auto; congruence).
    destruct (nth_error lms 33), (nth_error lms 263);
      injection H as <-; cbn; repeat split; auto; congruence.
Qed.

Lemma updateGlasses_keeps_settings_witness :
  exists this',
    GlassesRenderer.updateGlasses default_renderer
      (Some (eyes_frame 468 (mkLandmark 0.4 0.5 None) (mkLandmark 0.6 0.5 None)))
      100 100 = Ok this'
    /\ same_settings default_renderer this'.
Proof.
  destruct (updateGlasses_array_ok default_renderer
              (eyes_frame 468 (mkLandmark 0.4 0.5 None) (mkLandmark 0.6 0.5 None))
              100 100) as [this' E].
  exists this'. split; [exact E|].
  exact (proj1 (updateGlasses_keeps_settings default_renderer _ 100 100 this' E)).
Defined.

(** X21. With [landmarks] [null], [updateGlasses] throws in the flat-image
    branch (frame type ["png"] with an image) and leaves the renderer as it
    is in the 3D-model branch. *)
Theorem updateGlasses_null_landmarks :
  forall this (w h : R),
  (GlassesRenderer.currentFrame this = "png"%string ->
   GlassesRenderer.pngImage this <> None ->
   GlassesRenderer.updateGlasses this None w h = Throw)
  /\ (GlassesRenderer.currentFrame this <> "png"%string
      \/ GlassesRenderer.pngImage this = None ->
      GlassesRenderer.updateGlasses this None w h = Ok this).
Proof.
  intros this w h. split.
  - intros Hf Hi. unfold GlassesRenderer.updateGlasses.
    destruct (GlassesRenderer.pngImage this) as [img|] eqn:E; [|congruence].
    now rewrite (png_branch_on this img Hf E).
  - intros Hoff. unfold GlassesRenderer.updateGlasses.
    rewrite (png_branch_off this Hoff).
    destruct (GlassesRenderer.glassesModel this); reflexivity.
Qed.

Lemma updateGlasses_null_landmarks_witness :
  GlassesRenderer.updateGlasses png_renderer None 100 100 = Throw
  /\ GlassesRenderer.updateGlasses default_renderer None 100 100 = Ok default_renderer.
Proof.
  split.
  - apply (proj1 (updateGlasses_null_landmarks png_renderer 100 100)).
    + reflexivity.
    + discriminate.
  - apply (proj2 (updateGlasses_null_landmarks default_renderer 100 100)).
    right. reflexivity.
Defined.

(** X22. In the 3D-model branch [updateGlasses] is idempotent: a second
    call with the same landmarks and viewport changes nothing, so the
    placement does not build up from call to call. *)
Theorem updateGlasses_model_idempotent :
  forall this (landmarks : option Frame) (w h : R) this',
  GlassesRenderer.currentFrame this <> "png"%string
  \/ GlassesRenderer.pngImage this = None ->
  GlassesRenderer.updateGlasses this landmarks w h = Ok this' ->
  GlassesRenderer.updateGlasses this' landmarks w h = Ok this'.
Proof.
  intros this landmarks w h this' Hoff H.
  pose proof (png_branch_off this Hoff) as Hpng.
  unfold GlassesRenderer.updateGlasses in H. rewrite Hpng in H.
  destruct (GlassesRenderer.glassesModel this) as [model|] eqn:Hm;
    [destruct landmarks as [lms|]|].
  - destruct (nth_error lms 33) as [l|] eqn:H33;
      [destruct (nth_error lms 263) as [r|] eqn:H263|].
    + injection H as <-.
      unfold GlassesRenderer.updateGlasses, GlassesRenderer.png_branch in *.
      cbn [GlassesRenderer.currentFrame GlassesRenderer.pngImage
           GlassesRenderer.glassesModel GlassesRenderer.scale GlassesRenderer.width
           GlassesRenderer.heightOffset GlassesRenderer.context2d].
      rewrite Hpng, H33, H263. reflexivity.
    + injection H as <-. unfold GlassesRenderer.updateGlasses.
      rewrite Hpng, Hm, H33, H263. reflexivity.
    + injection H as <-. unfold GlassesRenderer.updateGlasses.
      rewrite Hpng, Hm, H33. reflexivity.
  - injection H as <-. unfold GlassesRenderer.updateGlasses.
    rewrite Hpng, Hm. reflexivity.
  - injection H as <-. unfold GlassesRenderer.updateGlasses.
    rewrite Hpng, Hm. reflexivity.
Qed.

Lemma updateGlasses_model_idempotent_witness :
  exists this',
    GlassesRenderer.updateGlasses default_renderer
      (Some (eyes_frame 468 (mkLandmark 0.4 0.5 None) (mkLandmark 0.6 0.5 None)))
      100 100 = Ok this'
    /\ GlassesRenderer.updateGlasses this'
         (Some (eyes_frame 468 (mkLandmark 0.4 0.5 None) (mkLandmark 0.6 0.5 None)))
         100 100 = Ok this'.
Proof.
  destruct (updateGlasses_array_ok default_renderer
              (eyes_frame 468 (mkLandmark 0.4 0.5 None) (mkLandmark 0.6 0.5 None))
              100 100) as [this' E].
  exists this'. split; [exact E|].
  exact (updateGlasses_model_idempotent default_renderer _ 100 100 this'
           (or_intror eq_refl) E).
Defined.

(** ** Renderer: how the placement follows the eyes and the parameters *)

(** X24. With the right eye corner to the right of the left one in the
    image and a viewport of positive size, the rotation is negative (and
    above [-PI/2]) when the right eye is lower in the image, positive (and
    below [PI/2]) when it is higher, and 0 when the eyes are level. *)
Theorem updateGlasses_rotation_sense :
  forall this (lms : Frame) (w h : R) model leftEye rightEye,
  GlassesRenderer.currentFrame this <> "png"%string
  \/ GlassesRenderer.pngImage this = None ->
  GlassesRenderer.glassesModel this = Some model ->
  nth_error lms 33 = Some leftEye ->
  nth_error lms 263 = Some rightEye ->
  0 < w -> 0 < h ->
  x leftEye < x rightEye ->
  exists this' model',
    GlassesRenderer.updateGlasses this (Some lms) w h = Ok this'
    /\ GlassesRenderer.glassesModel this' = Some model'
    /\ (y leftEye < y rightEye -> - (PI / 2) < THREE.z (THREE.rotation model') < 0)
    /\ (y rightEye < y leftEye -> 0 < THREE.z (THREE.rotation model') < PI / 2)
    /\ (y leftEye = y rightEye -> THREE.z (THREE.rotation model') = 0).
Proof.
  intros this lms w h model l r Hoff Hm H33 H263 Hw Hh Hx.
  pose proof (png_branch_off this Hoff) as Hpng.
  pose proof (updateGlasses_model_result this lms w h model l r Hpng Hm H33 H263) as E.
  cbv zeta in E.
  eexists. eexists. split; [exact E|]. split; [reflexivity|].
  cbn [THREE.rotation THREE.z].
  unfold GlassesRenderer.normalizedToWorld. cbn [x y].
  assert (Hq : 0 < w / h) by (apply Rdiv_lt_0_compat; assumption).
  clear E. revert Hq. generalize (w / h). intros q Hq.
  set (dxw := (x r - 0.5) * 2 * q - (x l - 0.5) * 2 * q).
  set (dyw := - (y r - 0.5) * 2 - - (y l - 0.5) * 2).
  assert (Hdx : 0 < dxw) by (unfold dxw; nra).
  rewrite atan2_right by exact Hdx.
  pose proof (atan_bound (dyw / dxw)) as Hb.
  assert (Hinv : 0 < / dxw) by now apply Rinv_0_lt_compat.
  repeat split; try lra.
  - rewrite <- atan_0. apply atan_increasing.
    assert (dyw < 0) by (unfold dyw; lra). unfold Rdiv. nra.
  - rewrite <- atan_0. apply atan_increasing.
    assert (0 < dyw) by (unfold dyw; lra). unfold Rdiv. nra.
  - intros Hy. replace dyw with 0 by (unfold dyw; lra).
    unfold Rdiv. rewrite Rmult_0_l. apply atan_0.
Qed.

Lemma updateGlasses_rotation_sense_witness :
  exists this' model',
    GlassesRenderer.updateGlasses default_renderer
      (Some (eyes_frame 468 (mkLandmark 0.4 0.4 None) (mkLandmark 0.6 0.6 None)))
      100 100 = Ok this'
    /\ GlassesRenderer.glassesModel this' = Some model'
    /\ - (PI / 2) < THREE.z (THREE.rotation model') < 0.
Proof.
  destruct (nth_error_eyes_frame 468 (mkLandmark 0.4 0.4 None) (mkLandmark 0.6 0.6 None))
    as [E33 E263]; [lia|].
  destruct (updateGlasses_rotation_sense default_renderer _ 100 100 _ _ _
              (or_intror eq_refl) eq_refl E33 E263)
    as (this' & model' & H1 & H2 & H3 & _); try (simpl; lra).
  exists this', model'. split; [exact H1|]. split; [exact H2|].
  apply H3. simpl. lra.
Defined.

(** X25. Each user parameter reaches one part of the next placement only:
    a new scale or width parameter leaves position and rotation as they
    would have been, and a new height offset leaves the [x] position, the
    scale and the rotation as they would have been.  The scale set is the
    same on the three axes, and it is not negative when the scale and width
    parameters are not. *)
Theorem updateGlasses_parameter_scope :
  forall this (lms : Frame) (w h s' w' o' : R) model leftEye rightEye,
  GlassesRenderer.currentFrame this <> "png"%string
  \/ GlassesRenderer.pngImage this = None ->
  GlassesRenderer.glassesModel this = Some model ->
  nth_error lms 33 = Some leftEye ->
  nth_error lms 263 = Some rightEye ->
  exists this0 m0 this1 m1 this2 m2 this3 m3,
    GlassesRenderer.updateGlasses this (Some lms) w h = Ok this0
    /\ GlassesRenderer.glassesModel this0 = Some m0
    /\ GlassesRenderer.updateGlasses (GlassesRenderer.updateScale this s')
         (Some lms) w h = Ok this1
    /\ GlassesRenderer.glassesModel this1 = Some m1
    /\ GlassesRenderer.updateGlasses (GlassesRenderer.updateWidth this w')
         (Some lms) w h = Ok this2
    /\ GlassesRenderer.glassesModel this2 = Some m2
    /\ GlassesRenderer.updateGlasses (GlassesRenderer.updateHeightOffset this o')
         (Some lms) w h = Ok this3
    /\ GlassesRenderer.glassesModel this3 = Some m3
    /\ THREE.position m1 = THREE.position m0 /\ THREE.rotation m1 = THREE.rotation m0
    /\ THREE.position m2 = THREE.position m0 /\ THREE.rotation m2 = THREE.rotation m0
    /\ THREE.x (THREE.position m3) = THREE.x (THREE.position m0)
    /\ THREE.scale m3 = THREE.scale m0 /\ THREE.rotation m3 = THREE.rotation m0
    /\ THREE.y (THREE.scale m0) = THREE.x (THREE.scale m0)
    /\ THREE.z (THREE.scale m0) = THREE.x (THREE.scale m0)
    /\ (0 <= GlassesRenderer.scale this -> 0 <= GlassesRenderer.width this ->
        0 <= THREE.x (THREE.scale m0)).
Proof.
  intros this lms w h s' w' o' model l r Hoff Hm H33 H263.
  pose proof (png_branch_off this Hoff) as Hpng.
  pose proof (updateGlasses_model_result this lms w h model l r Hpng Hm H33 H263) as E0.
  pose proof (updateGlasses_model_result (GlassesRenderer.updateScale this s')
                lms w h model l r Hpng Hm H33 H263) as E1.
  pose proof (updateGlasses_model_result (GlassesRenderer.updateWidth this w')
                lms w h model l r Hpng Hm H33 H263) as E2.
  pose proof (updateGlasses_model_result (GlassesRenderer.updateHeightOffset this o')
                lms w h model l r Hpng Hm H33 H263) as E3.
  cbv zeta in E0, E1, E2, E3.
  do 8 eexists.
  split; [exact E0|]. split; [reflexivity|].
  split; [exact E1|]. split; [reflexivity|].
  split; [exact E2|]. split; [reflexivity|].
  split; [exact E3|]. split; [reflexivity|].
  cbn [THREE.scale THREE.rotation THREE.position THREE.x THREE.y THREE.z
       GlassesRenderer.scale GlassesRenderer.width GlassesRenderer.heightOffset
       GlassesRenderer.updateScale GlassesRenderer.updateWidth
       GlassesRenderer.updateHeightOffset].
  do 9 (split; [reflexivity|]).
  intros Hs Hw.
  apply Rmult_le_pos; [|exact Hw]. apply Rmult_le_pos; [|exact Hs].
  apply Rmult_le_pos; [apply Rabs_pos|lra].
Qed.

Lemma updateGlasses_parameter_scope_witness :
  exists this0 m0 this1 m1,
    GlassesRenderer.updateGlasses default_renderer
      (Some (eyes_frame 468 (mkLandmark 0.4 0.5 None) (mkLandmark 0.6 0.5 None)))
      100 100 = Ok this0
    /\ GlassesRenderer.glassesModel this0 = Some m0
    /\ GlassesRenderer.updateGlasses (GlassesRenderer.updateScale default_renderer 1.5)
         (Some (eyes_frame 468 (mkLandmark 0.4 0.5 None) (mkLandmark 0.6 0.5 None)))
         100 100 = Ok this1
    /\ GlassesRenderer.glassesModel this1 = Some m1
    /\ THREE.position m1 = THREE.position m0.
Proof.
  destruct (nth_error_eyes_frame 468 (mkLandmark 0.4 0.5 None) (mkLandmark 0.6 0.5 None))
    as [E33 E263]; [lia|].
  destruct (updateGlasses_parameter_scope default_renderer _ 100 100 1.5 1 0 _ _ _
              (or_intror eq_refl) eq_refl E33 E263)
    as (this0 & m0 & this1 & m1 & _ & _ & _ & _ & H0 & H1 & H2 & H3 & _ & _ & _ & _ & H4 & _).
  exists this0, m0, this1, m1. auto.
Defined.

(** ** The detection callback over time *)

Lemma same_settings_refl : forall r, same_settings r r.
Proof. intros r. unfold same_settings. auto. Qed.

Lemma same_renderer_settings_refl : forall o, same_renderer_settings o o.
Proof. intros [r|]; simpl; auto using same_settings_refl. Qed.

Lemma same_renderer_settings_trans : forall o1 o2 o3,
  same_renderer_settings o1 o2 -> same_renderer_settings o2 o3 ->
  same_renderer_settings o1 o3.
Proof.
  intros [r1|] [r2|] [r3|]; simpl; try tauto.
  unfold same_settings. intros (A1 & A2 & A3 & A4 & A5) (B1 & B2 & B3 & B4 & B5).
  repeat split; congruence.
Qed.

Lemma updateGlasses_same_settings : forall this (lms : Frame) (w h : R),
  exists this',
    GlassesRenderer.updateGlasses this (Some lms) w h = Ok this'
    /\ same_settings this this'.
Proof.
  intros this lms w h. unfold GlassesRenderer.updateGlasses, same_settings.
  destruct (GlassesRenderer.png_branch this).
  - destruct (nth_error lms 33), (nth_error lms 263);
      eexists; (split; [reflexivity|]); cbn; auto.
  - destruct (GlassesRenderer.glassesModel this);
      [|eexists; split; [reflexivity|]; auto].
    destruct (nth_error lms 33), (nth_error lms 263);
      eexists; (split; [reflexivity|]); cbn; auto.
Qed.

(** What one call of the callback keeps. *)
Lemma onFaceDetected_keeps : forall app results,
  exists app',
    VirtualTryOnApp.onFaceDetected app results = Ok app'
    /\ VirtualTryOnApp.smoothingEnabled app' = VirtualTryOnApp.smoothingEnabled app
    /\ VirtualTryOnApp.outputCanvas app' = VirtualTryOnApp.outputCanvas app
    /\ same_renderer_settings (VirtualTryOnApp.glassesRenderer app)
                              (VirtualTryOnApp.glassesRenderer app').
Proof.
  intros app results. unfold VirtualTryOnApp.onFaceDetected.
  destruct results as [res|];
    [|exists app; auto using same_renderer_settings_refl].
  destruct (VirtualTryOnApp.glassesRenderer app) as [renderer|] eqn:Hr;
    [|exists app; rewrite Hr; simpl; auto].
  match goal with
  | |- context [GlassesRenderer.updateGlasses ?r (Some ?l) ?w ?h] =>
      destruct (updateGlasses_same_settings r l w h) as (r' & -> & Hs)
  end.
  eexists. split; [reflexivity|]. simpl. auto.
Qed.

Lemma no_flat_image_kept : forall o o',
  same_renderer_settings o o' -> no_flat_image o -> no_flat_image o'.
Proof.
  intros [r|] [r'|]; simpl; try tauto.
  unfold same_settings, model_branch. intros (A1 & _ & _ & _ & A5) H.
  rewrite A1, A5. exact H.
Qed.

(** X26. With no renderer, or one that takes the 3D-model branch, no run of
    detection cycles throws, whatever the detector delivers, and none
    changes the overlay parameters, the frame type, the image, the
    smoothing switch or the canvas size; a renderer is neither created nor
    dropped. *)
Theorem run_cycles_total_keeps_settings :
  forall (cycles : list (option (list Frame))) app,
  no_flat_image (VirtualTryOnApp.glassesRenderer app) ->
  exists app',
    VirtualTryOnApp.run_cycles app cycles = Ok app'
    /\ VirtualTryOnApp.smoothingEnabled app' = VirtualTryOnApp.smoothingEnabled app
    /\ VirtualTryOnApp.outputCanvas app' = VirtualTryOnApp.outputCanvas app
    /\ same_renderer_settings (VirtualTryOnApp.glassesRenderer app)
                              (VirtualTryOnApp.glassesRenderer app')
    /\ no_flat_image (VirtualTryOnApp.glassesRenderer app').
Proof.
  induction cycles as [|c rest IH]; intros app Hb.
  - exists app. simpl. auto using same_renderer_settings_refl.
  - simpl. unfold VirtualTryOnApp.detection_cycle.
    destruct (onFaceDetected_keeps app (processResults c)) as (app1 & -> & S1 & C1 & R1).
    destruct (IH app1 (no_flat_image_kept _ _ R1 Hb)) as (app' & E & S2 & C2 & R2 & B2).
    exists app'. split; [exact E|].
    split; [congruence|]. split; [congruence|]. split; [|exact B2].
    eapply same_renderer_settings_trans; eauto.
Qed.

Lemma run_cycles_total_keeps_settings_witness :
  exists app',
    VirtualTryOnApp.run_cycles
      (VirtualTryOnApp.mk (Some default_renderer) None true (Canvas.mkElement 100 100))
      [Some [[mkLandmark 0.5 0.5 None]]; None; Some []] = Ok app'
    /\ VirtualTryOnApp.smoothingEnabled app' = true.
Proof.
  destruct (run_cycles_total_keeps_settings
              [Some [[mkLandmark 0.5 0.5 None]]; None; Some []]
              (VirtualTryOnApp.mk (Some default_renderer) None true
                                  (Canvas.mkElement 100 100)))
    as (app' & E & Hs & _).
  - right. reflexivity.
  - exists app'. split; assumption.
Defined.

(** X27. A cycle with a face and a renderer that takes the 3D-model branch
    stores the frame it passed to the renderer, which has as many landmarks
    as the detected frame; that frame is the raw one on the first face seen
    and whenever smoothing is switched off, and the detected frame smoothed
    against the stored one with factor 0.7 otherwise.  Without a renderer
    the result is dropped and nothing is stored. *)
Theorem onFaceDetected_stored_frame :
  forall app (res : Results),
  (forall renderer,
     VirtualTryOnApp.glassesRenderer app = Some renderer ->
     model_branch renderer ->
     exists app' stored,
       VirtualTryOnApp.onFaceDetected app (Some res) = Ok app'
       /\ VirtualTryOnApp.previousLandmarks app' = Some stored
       /\ length stored = length (landmarks res)
       /\ (VirtualTryOnApp.previousLandmarks app = None
           \/ VirtualTryOnApp.smoothingEnabled app = false ->
           stored = landmarks res)
       /\ (forall previous,
             VirtualTryOnApp.smoothingEnabled app = true ->
             VirtualTryOnApp.previousLandmarks app = Some previous ->
             stored = smoothLandmarks (landmarks res) (Some previous) (Some 0.7)))
  /\ (VirtualTryOnApp.glassesRenderer app = None ->
      VirtualTryOnApp.onFaceDetected app (Some res) = Ok app).
Proof.
  intros app res. split.
  - intros renderer Hr _. unfold VirtualTryOnApp.onFaceDetected. rewrite Hr.
    match goal with
    | |- context [GlassesRenderer.updateGlasses ?r (Some ?l) ?w ?h] =>
        destruct (updateGlasses_array_ok r l w h) as (r' & ->)
    end.
    eexists. eexists. split; [reflexivity|].
    cbn [VirtualTryOnApp.previousLandmarks]. split; [reflexivity|].
    destruct (VirtualTryOnApp.smoothingEnabled app),
             (VirtualTryOnApp.previousLandmarks app) as [prev|];
      (split; [try reflexivity; apply smoothLandmarks_length|]);
      (split; [intros [H|H]; try discriminate; reflexivity|]);
      intros previous H1 H2; try discriminate; congruence.
  - intros Hr. unfold VirtualTryOnApp.onFaceDetected. now rewrite Hr.
Qed.

Lemma smooth_rounds_shift : forall n (F P : Frame) a,
  smooth_rounds n F (smoothLandmarks F (Some P) (Some a)) a
  = smooth_rounds (S n) F P a.
Proof.
  induction n as [|n IH]; intros F P a.
  - reflexivity.
  - change (smooth_rounds (S n) F (smoothLandmarks F (Some P) (Some a)) a)
      with (smoothLandmarks F
              (Some (smooth_rounds n F (smoothLandmarks F (Some P) (Some a)) a)) (Some a)).
    rewrite IH. reflexivity.
Qed.

(** X28. When the detector delivers the same face [F] for [n] cycles in a
    row, with a renderer that takes the 3D-model branch, smoothing on and a
    stored frame [P], the frame stored afterwards is [P] taken [n] times
    through [smoothLandmarks(F, ., 0.7)]. *)
Theorem run_cycles_constant_face :
  forall (n : nat) app (F P : Frame) renderer,
  VirtualTryOnApp.glassesRenderer app = Some renderer ->
  model_branch renderer ->
  VirtualTryOnApp.smoothingEnabled app = true ->
  VirtualTryOnApp.previousLandmarks app = Some P ->
  exists app',
    VirtualTryOnApp.run_cycles app (repeat (Some [F]) n) = Ok app'
    /\ VirtualTryOnApp.previousLandmarks app' = Some (smooth_rounds n F P 0.7).
Proof.
  induction n as [|n IH]; intros app F P renderer Hr Hb Hs Hp.
  - exists app. split; [reflexivity|exact Hp].
  - cbn [repeat VirtualTryOnApp.run_cycles].
    unfold VirtualTryOnApp.detection_cycle. rewrite processResults_face.
    unfold VirtualTryOnApp.onFaceDetected. rewrite Hr, Hs, Hp.
    cbn [landmarks].
    match goal with
    | |- context [GlassesRenderer.updateGlasses ?r (Some ?l) ?w ?h] =>
        destruct (updateGlasses_same_settings r l w h) as (r' & -> & Hsame)
    end.
    assert (Hb' : model_branch r').
    { exact (no_flat_image_kept (Some renderer) (Some r') Hsame Hb). }
    match goal with
    | |- context [VirtualTryOnApp.run_cycles ?a _] =>
        destruct (IH a F (smoothLandmarks F (Some P) (Some 0.7)) r'
                    eq_refl Hb' eq_refl eq_refl) as (app' & E & Hprev)
    end.
    exists app'. split; [exact E|].
    rewrite Hprev. now rewrite smooth_rounds_shift.
Qed.

Lemma run_cycles_constant_face_witness :
  exists app',
    VirtualTryOnApp.run_cycles
      (VirtualTryOnApp.mk (Some default_renderer) (Some [mkLandmark 0 0 None]) true
                          (Canvas.mkElement 100 100))
      (repeat (Some [[mkLandmark 1 1 None]]) 3) = Ok app'
    /\ VirtualTryOnApp.previousLandmarks app'
       = Some (smooth_rounds 3 [mkLandmark 1 1 None] [mkLandmark 0 0 None] 0.7).
Proof.
  apply (run_cycles_constant_face 3
           (VirtualTryOnApp.mk (Some default_renderer) (Some [mkLandmark 0 0 None]) true
                               (Canvas.mkElement 100 100))
           [mkLandmark 1 1 None] [mkLandmark 0 0 None] default_renderer
           eq_refl (or_intror eq_refl) eq_refl eq_refl).
Defined.

(** ** The tracker: detection rate and readiness *)

(** X29. However often and at whatever times the camera calls [onFrame],
    two frames sent to the face mesh one after the other are at least
    [detectionInterval] milliseconds apart, and the first one sent is at
    least that long after the last detection recorded before. *)
Theorem onFrame_sends_spaced :
  forall (times : list Z) (this : Tracker),
  spaced (detectionInterval this) (lastDetectionTime this) (send_times this times).
Proof.
  induction times as [|t rest IH]; intros this; simpl.
  - exact I.
  - unfold onFrame.
    destruct (t - lastDetectionTime this >=? detectionInterval this)%Z eqn:E.
    + simpl. split.
      * apply Z.geb_le in E. lia.
      * exact (IH (mkTracker (camera this) (isInitialized this) t
                             (detectionInterval this))).
    + apply IH.
Qed.

(** X30. After [stop()] the tracker is not ready, and [restart()] does not
    make it ready again although it starts the camera when there is one:
    only [init] sets [isInitialized]. *)
Theorem stop_restart_not_ready :
  forall this : Tracker,
  isReady (stop this) = false
  /\ isReady (restart (stop this)) = false
  /\ (camera this <> None ->
      camera (restart (stop this)) = Some (mkCameraUtil true))
  /\ (camera this = None -> camera (restart (stop this)) = None).
Proof.
  intros this. unfold isReady, stop, restart. simpl.
  repeat split.
  - destruct (camera this); [reflexivity|congruence].
  - intros ->. reflexivity.
Qed.

Lemma stop_restart_not_ready_witness :
  isReady (restart (stop (mkTracker (Some (mkCameraUtil true)) true 1000 33))) = false
  /\ camera (restart (stop (mkTracker (Some (mkCameraUtil true)) true 1000 33)))
     = Some (mkCameraUtil true).
Proof.
  destruct (stop_restart_not_ready (mkTracker (Some (mkCameraUtil true)) true 1000 33))
    as (_ & H1 & H2 & _).
  split; [exact H1|]. apply H2. discriminate.
Defined.

Lemma calculateConfidence_quarters_witness :
  calculateConfidence (Some []) = 0.
Proof.
  apply (proj2 (proj2 (calculateConfidence_quarters (Some [])))).
  right. reflexivity.
Defined.

Lemma onFaceDetected_stored_frame_witness :
  exists app' stored,
    VirtualTryOnApp.onFaceDetected
      (VirtualTryOnApp.mk (Some default_renderer) None true (Canvas.mkElement 100 100))
      (Some (mkResults [mkLandmark 0.5 0.5 None]
               (mkKeyLandmarks None None None None None None None None None None None
                               None None None None None None)
               0 None (Pose.mk 0 0 0)))
    = Ok app'
    /\ VirtualTryOnApp.previousLandmarks app' = Some stored
    /\ stored = [mkLandmark 0.5 0.5 None].
Proof.
  destruct (proj1 (onFaceDetected_stored_frame
              (VirtualTryOnApp.mk (Some default_renderer) None true
                                  (Canvas.mkElement 100 100))
              (mkResults [mkLandmark 0.5 0.5 None]
                 (mkKeyLandmarks None None None None None None None None None None None
                                 None None None None None None)
                 0 None (Pose.mk 0 0 0)))
              default_renderer eq_refl (or_intror eq_refl))
    as (app' & stored & E & Hp & _ & Hraw & _).
  exists app', stored. split; [exact E|]. split; [exact Hp|].
  apply Hraw. left. reflexivity.
Defined.
